(** * prisma-ezfilter: query builder and validator

    A shallow embedding of [src/builders/queryBuilder.ts] (the builder) and of
    the validator module ([validateQuery] and its helpers), followed by the
    properties of the field-path folding, of the AND/OR composition, of the
    pagination and of the validation diagnostics.

    Conventions of the embedding.
    - A JavaScript value of type [any] is a [value]; an object is the list of
      its own enumerable properties in the order [Object.entries] visits them.
    - Strings are [string]s; the only characters the code inspects are the
      ASCII characters ['.'], the digits and the punctuation of a time stamp.
    - [page], [rows], [maxPageSize], [take] and [skip] are numbers of the
      host: IEEE-754 binary64 values ([number]), with their rounding, their
      two zeros, their infinities and [NaN].
    - What belongs to the host and not to this code base is a parameter of
      the validator: the parsing of a date and the printing of a number.
    - The two arrays [errors] and [warnings] that the validator's helpers
      mutate are threaded explicitly as a [Diag]. *)

From Stdlib Require Import ZArith Lia Ascii DecimalString SpecFloat.
From stdpp Require Import base list strings.

Local Open Scope Z_scope.

(** ** Values *)

#[warnings="-register-all"]
Inductive value : Type :=
| VUndefined
| VNull
| VBool (b : bool)
| VNum (n : Z)
| VStr (s : string)
| VDate (t : Z)
| VArr (items : list value)
| VObj (props : list (string * value)).

(** [Record<string, any | any[] | null>], as [Object.entries] lists it. *)
Abbreviation Record_ := (list (string * value)) (only parsing).

(** [value === null || value === undefined] *)
Definition isNullish (v : value) : bool :=
  match v with
  | VUndefined | VNull => true
  | _ => false
  end.

(** [Array.isArray(value)] *)
Definition isArray (v : value) : bool :=
  match v with
  | VArr _ => true
  | _ => false
  end.

(** ** Numbers of the host language

    A number is an IEEE-754 binary64 value; the operations round to nearest,
    ties to even. *)

Definition number : Type := spec_float.

Module JsNumber.

Definition prec : Z := 53.
Definition emax : Z := 1024.

(** The number written as the integer literal [z]. *)
Definition of_Z (z : Z) : number := binary_normalize prec emax z 0 false.

Definition NaN : number := S754_nan.
Definition Infinity : number := S754_infinity false.

(** [x - y] and [x * y] *)
Definition sub (x y : number) : number := SFsub prec emax x y.
Definition mul (x y : number) : number := SFmul prec emax x y.

(** [x < y]; [x > y] is [ltb y x].  Both are false when an operand is [NaN]. *)
Definition ltb (x y : number) : bool := SFltb x y.

(** Truthiness of a number: [0], [-0] and [NaN] are falsy. *)
Definition truthy (x : number) : bool :=
  match x with
  | S754_zero _ | S754_nan => false
  | _ => true
  end.

End JsNumber.

(** ** String primitives of the host language *)

Module JsString.

(** [s.includes(c)] for a one-character needle. *)
Fixpoint includes (c : ascii) (s : string) : bool :=
  match s with
  | EmptyString => false
  | String a s' => if Ascii.eqb a c then true else includes c s'
  end.

(** [s.split(c)] for a one-character separator: never empty, the empty
    string gives one empty segment, consecutive separators give empty
    segments. *)
Fixpoint split (c : ascii) (s : string) : list string :=
  match s with
  | EmptyString => [EmptyString]
  | String a s' =>
      if Ascii.eqb a c then EmptyString :: split c s'
      else match split c s' with
           | [] => [String a EmptyString]
           | seg :: rest => String a seg :: rest
           end
  end.

(** [segs.join(c)] *)
Fixpoint join (c : ascii) (segs : list string) : string :=
  match segs with
  | [] => EmptyString
  | [seg] => seg
  | seg :: rest => seg +:+ String c (join c rest)
  end.

(** Number of occurrences of [c] in [s]. *)
Fixpoint count (c : ascii) (s : string) : nat :=
  match s with
  | EmptyString => 0%nat
  | String a s' => ((if Ascii.eqb a c then 1 else 0) + count c s')%nat
  end.

End JsString.

Definition dot : ascii := "."%char.

(** ** Arrays of the host language *)

(** [parts.pop()]: the removed last element ([undefined] on an empty array)
    and the array that is left. *)
Definition pop {A} (parts : list A) : option A * list A :=
  (last parts, removelast parts).

(** A computed property name [[k]]: an [undefined] key is the property
    ["undefined"]. *)
Definition propertyKey (k : option string) : string :=
  default "undefined" k.

(** [arr.includes(x)] on an array of strings. *)
Definition arrayIncludes (arr : list string) (x : string) : bool :=
  bool_decide (x ∈ arr).

(** ** Types of the request and of the specification *)

Inductive OrderDirection := asc | desc.

Definition OrderDirection_str (d : OrderDirection) : string :=
  match d with asc => "asc" | desc => "desc" end.

Inductive SearchMode := insensitive | sensitive.

Definition SearchMode_str (m : SearchMode) : string :=
  match m with insensitive => "insensitive" | sensitive => "sensitive" end.

Record RangedFilter := {
  key : string;
  start : value;
  end_ : value
}.

Record FilteringQuery := {
  filters : option Record_;
  searchFilters : option Record_;
  rangedFilters : option (list RangedFilter);
  orderKey : option string;
  orderRule : option OrderDirection;
  page : option number;
  rows : option number
}.

(** The fields of [QuerySpecification] that the builder and the validator
    read, and the three they never read. *)
Record QuerySpecification := {
  allowedFields : option (list string);
  allowedOperators : option (list string);
  allowedRelations : option (list string);
  maxPageSize : option number;
  defaultPageSize : option number;
  requiredFields : option (list string);
  forbiddenFields : option (list string);
  defaultSearchMode : option SearchMode
}.

Record PrismaQueryOptions := {
  where_ : value;
  orderBy : value;
  take : number;
  skip : number
}.

(** ** The builder: nested conditions *)

(** The loop [for (let i = n - 1; i >= 0; i--) current = { [parts[i]]: current }],
    entered with [n = parts.length]. *)
Fixpoint wrapRightToLeft (parts : list string) (n : nat) (current : value) : value :=
  match n with
  | O => current
  | S i => wrapRightToLeft parts i (VObj [(propertyKey (parts !! i), current)])
  end.

(** The body that [buildNestedOrderBy], [buildNestedWhere], [buildNestedSearch]
    and [buildNestedRange] each spell out: split, pop the last part, wrap. *)
Definition foldPath (path : string) (leaf : value) : value :=
  let parts := JsString.split dot path in
  let '(lastPart, parts) := pop parts in
  let current := VObj [(propertyKey lastPart, leaf)] in
  wrapRightToLeft parts (length parts) current.

Definition buildNestedOrderBy (orderKey : string) (orderRule : OrderDirection) : value :=
  if negb (JsString.includes dot orderKey) then
    VObj [(orderKey, VStr (OrderDirection_str orderRule))]
  else foldPath orderKey (VStr (OrderDirection_str orderRule)).

Definition buildNestedWhere (key : string) (v : value) : value :=
  if negb (JsString.includes dot key) then VObj [(key, v)]
  else foldPath key v.

(** [{ contains: value, mode: searchMode }] *)
Definition searchLeaf (v : value) (searchMode : SearchMode) : value :=
  VObj [("contains", v); ("mode", VStr (SearchMode_str searchMode))].

Definition buildNestedSearch (key : string) (v : value) (searchMode : SearchMode) : value :=
  if negb (JsString.includes dot key) then VObj [(key, searchLeaf v searchMode)]
  else foldPath key (searchLeaf v searchMode).

(** [{ gte: range.start, lte: range.end }] *)
Definition rangeLeaf (range : RangedFilter) : value :=
  VObj [("gte", start range); ("lte", end_ range)].

Definition buildNestedRange (range : RangedFilter) : value :=
  foldPath (key range) (rangeLeaf range).

(** ** The builder: the condition lists *)

Definition OR_ (members : list value) : value := VObj [("OR", VArr members)].

(** One turn of the loop of [buildWhereQuery] over [Object.entries(filters)]. *)
Definition buildWhereQuery_step (whereConditions : list value) (entry : string * value)
  : list value :=
  let '(key, v) := entry in
  if isNullish v then whereConditions
  else if JsString.includes dot key then
    match v with
    | VArr items =>
        whereConditions ++ [OR_ (map (fun val => buildNestedWhere key val) items)]
    | _ => whereConditions ++ [buildNestedWhere key v]
    end
  else
    match v with
    | VArr items =>
        whereConditions ++ [OR_ (map (fun val => VObj [(key, val)]) items)]
    | _ => whereConditions ++ [VObj [(key, v)]]
    end.

Definition buildWhereQuery (filters : Record_) : list value :=
  fold_left buildWhereQuery_step filters [].

(** [specification?.defaultSearchMode || 'insensitive'] *)
Definition resolveSearchMode (specification : option QuerySpecification) : SearchMode :=
  match specification with
  | Some spec => default insensitive (defaultSearchMode spec)
  | None => insensitive
  end.

(** One turn of the loop of [buildSearchQuery]; the state is the pair
    [(whereConditions, orQuerySearchArray)]. *)
Definition buildSearchQuery_step (isMultiKey : bool)
    (specification : option QuerySpecification)
    (st : list value * list value) (entry : string * value)
  : list value * list value :=
  let '(whereConditions, orQuerySearchArray) := st in
  let '(key, v) := entry in
  if isNullish v then st
  else
    let searchMode := resolveSearchMode specification in
    let searchQuery :=
      if JsString.includes dot key then buildNestedSearch key v searchMode
      else VObj [(key, searchLeaf v searchMode)] in
    if isMultiKey then (whereConditions, orQuerySearchArray ++ [searchQuery])
    else (whereConditions ++ [searchQuery], orQuerySearchArray).

Definition buildSearchQuery (searchFilters : Record_)
    (specification : option QuerySpecification) : list value :=
  let isMultiKey := (1 <? length searchFilters)%nat in
  let '(whereConditions, orQuerySearchArray) :=
    fold_left (buildSearchQuery_step isMultiKey specification) searchFilters ([], []) in
  if isMultiKey && (0 <? length orQuerySearchArray)%nat
  then whereConditions ++ [OR_ orQuerySearchArray]
  else whereConditions.

Definition buildRangedFilter_step (whereConditions : list value) (range : RangedFilter)
  : list value :=
  if JsString.includes dot (key range) then whereConditions ++ [buildNestedRange range]
  else whereConditions ++ [VObj [(key range, rangeLeaf range)]].

Definition buildRangedFilter (rangedFilters : list RangedFilter) : list value :=
  fold_left buildRangedFilter_step rangedFilters [].

(** Truthiness of an optional number: [undefined], [0], [-0] and [NaN] are
    falsy. *)
Definition truthyNumber (n : option number) : bool :=
  match n with
  | Some n => JsNumber.truthy n
  | None => false
  end.

(** Truthiness of an optional string: [undefined] and [''] are falsy. *)
Definition truthyString (s : option string) : bool :=
  match s with
  | Some EmptyString | None => false
  | Some _ => true
  end.

(** [buildPagination] returns [{ take, skip }], here the pair [(take, skip)]. *)
Definition buildPagination (filter : FilteringQuery) : number * number :=
  let take := JsNumber.of_Z 10 in
  let skip := JsNumber.of_Z 0 in
  match page filter with
  | Some p =>
      if truthyNumber (Some p) then
        match rows filter with
        | Some r =>
            if truthyNumber (Some r)
            then (r, JsNumber.mul (JsNumber.sub p (JsNumber.of_Z 1)) r)
            else (take, JsNumber.mul (JsNumber.of_Z 10) (JsNumber.sub p (JsNumber.of_Z 1)))
        | None =>
            (take, JsNumber.mul (JsNumber.of_Z 10) (JsNumber.sub p (JsNumber.of_Z 1)))
        end
      else (take, skip)
  | None => (take, skip)
  end.

(** ** The builder: objects and the top-level query *)

(** [obj[k]] and [obj[k] = v] on the property list of an object. *)
Fixpoint getProp (props : list (string * value)) (k : string) : value :=
  match props with
  | [] => VUndefined
  | (k', v) :: rest => if String.eqb k' k then v else getProp rest k
  end.

Fixpoint setProp (props : list (string * value)) (k : string) (v : value)
  : list (string * value) :=
  match props with
  | [] => [(k, v)]
  | (k', v') :: rest =>
      if String.eqb k' k then (k', v) :: rest else (k', v') :: setProp rest k v
  end.

(** [[...v]]: the elements of an array; spreading anything else here is a
    [TypeError], modelled as [None]. *)
Definition spread (v : value) : option (list value) :=
  match v with
  | VArr items => Some items
  | _ => None
  end.

(** [query.where!['AND'] = [...(query.where!['AND'] as any[]), ...conditions]] *)
Definition appendAND (query : PrismaQueryOptions) (conditions : list value)
  : option PrismaQueryOptions :=
  match where_ query with
  | VObj props =>
      items ← spread (getProp props "AND");
      Some {| where_ := VObj (setProp props "AND" (VArr (items ++ conditions)));
              orderBy := orderBy query; take := take query; skip := skip query |}
  | _ => None
  end.

(** [if (field) query = then(query, field)] for an optional object field. *)
Definition whenPresent {A} (field : option A)
    (f : A -> PrismaQueryOptions -> option PrismaQueryOptions)
    (query : PrismaQueryOptions) : option PrismaQueryOptions :=
  match field with
  | Some x => f x query
  | None => Some query
  end.

Definition buildFilterQuery (filter : FilteringQuery)
    (specification : option QuerySpecification) : option PrismaQueryOptions :=
  let query := {| where_ := VObj [("AND", VArr [])];
                  orderBy := VObj [];
                  take := JsNumber.of_Z 10; skip := JsNumber.of_Z 0 |} in
  query ← whenPresent (filters filter)
             (fun fs q => appendAND q (buildWhereQuery fs)) query;
  query ← whenPresent (searchFilters filter)
             (fun sfs q => appendAND q (buildSearchQuery sfs specification)) query;
  query ← whenPresent (rangedFilters filter)
             (fun rfs q => appendAND q (buildRangedFilter rfs)) query;
  let query :=
    match orderKey filter with
    | Some k =>
        if truthyString (Some k) then
          let orderRule := default asc (orderRule filter) in
          {| where_ := where_ query; orderBy := buildNestedOrderBy k orderRule;
             take := take query; skip := skip query |}
        else query
    | None => query
    end in
  let '(take, skip) := buildPagination filter in
  Some {| where_ := where_ query; orderBy := orderBy query;
          take := take; skip := skip |}.

(** ** Regular expressions of the host language

    The fragment that [dateRegex] uses.  [\d{n}], [(?:r)?] and [r+] are the
    usual abbreviations; [test] decides whether the whole string matches, as
    a pattern anchored by [^] and [$] does. *)

Module RegExp.

Inductive regex : Type :=
| Void
| Eps
| Digit
| Chr (c : ascii)
| Seq (r1 r2 : regex)
| Alt (r1 r2 : regex)
| Star (r : regex).

(** [\d]: one of the ten ASCII digits. *)
Definition isDigit (c : ascii) : bool :=
  match Ascii.is_nat c with
  | Some _ => true
  | None => false
  end.

Fixpoint repeat (n : nat) (r : regex) : regex :=
  match n with
  | O => Eps
  | S n' => Seq r (repeat n' r)
  end.

Definition optional (r : regex) : regex := Alt r Eps.
Definition plus (r : regex) : regex := Seq r (Star r).

Fixpoint sequence (rs : list regex) : regex :=
  match rs with
  | [] => Eps
  | r :: rs' => Seq r (sequence rs')
  end.

Fixpoint nullable (r : regex) : bool :=
  match r with
  | Void => false
  | Eps => true
  | Digit => false
  | Chr _ => false
  | Seq r1 r2 => nullable r1 && nullable r2
  | Alt r1 r2 => nullable r1 || nullable r2
  | Star _ => true
  end.

(** The residual of [r] after reading the character [a]. *)
Fixpoint deriv (a : ascii) (r : regex) : regex :=
  match r with
  | Void => Void
  | Eps => Void
  | Digit => if isDigit a then Eps else Void
  | Chr c => if Ascii.eqb a c then Eps else Void
  | Seq r1 r2 =>
      if nullable r1 then Alt (Seq (deriv a r1) r2) (deriv a r2)
      else Seq (deriv a r1) r2
  | Alt r1 r2 => Alt (deriv a r1) (deriv a r2)
  | Star r' => Seq (deriv a r') (Star r')
  end.

(** [/^r$/.test(s)] *)
Fixpoint test (r : regex) (s : string) : bool :=
  match s with
  | EmptyString => nullable r
  | String a s' => test (deriv a r) s'
  end.

(** The language of a regular expression. *)
Inductive matches : regex -> string -> Prop :=
| m_eps : matches Eps EmptyString
| m_digit a : isDigit a = true -> matches Digit (String a EmptyString)
| m_chr c : matches (Chr c) (String c EmptyString)
| m_seq r1 r2 s1 s2 :
    matches r1 s1 -> matches r2 s2 -> matches (Seq r1 r2) (s1 +:+ s2)
| m_alt_l r1 r2 s : matches r1 s -> matches (Alt r1 r2) s
| m_alt_r r1 r2 s : matches r2 s -> matches (Alt r1 r2) s
| m_star_nil r : matches (Star r) EmptyString
| m_star_cons r s1 s2 :
    matches r s1 -> matches (Star r) s2 -> matches (Star r) (s1 +:+ s2).

End RegExp.

(** [/^\d{4}-\d{2}-\d{2}T\d{2}:\d{2}:\d{2}(?:\.\d+)?Z$/] *)
Definition dateRegex : RegExp.regex :=
  let d := RegExp.Digit in
  let c := RegExp.Chr in
  RegExp.sequence
    [RegExp.repeat 4 d; c "-"%char; RegExp.repeat 2 d; c "-"%char;
     RegExp.repeat 2 d; c "T"%char; RegExp.repeat 2 d; c ":"%char;
     RegExp.repeat 2 d; c ":"%char; RegExp.repeat 2 d;
     RegExp.optional (RegExp.Seq (c "."%char) (RegExp.plus d)); c "Z"%char].

Definition isValidDate (dateString : value) : bool :=
  match dateString with
  | VStr s => RegExp.test dateRegex s
  | _ => false
  end.

(** ** The validator *)

Record Diag := {
  errors : list string;
  warnings : list string
}.

Definition pushError (msg : string) (d : Diag) : Diag :=
  {| errors := errors d ++ [msg]; warnings := warnings d |}.

Definition pushWarning (msg : string) (d : Diag) : Diag :=
  {| errors := errors d; warnings := warnings d ++ [msg] |}.

Record ValidationResult := {
  isValid : bool;
  vr_errors : list string;
  vr_warnings : list string
}.

(** [`${v}`] where the code interpolates a range bound: the template is only
    evaluated under [isValidDate], on a string. *)
Definition String_ (v : value) : string :=
  match v with
  | VStr s => s
  | _ => EmptyString
  end.

Module Msg.
Definition fieldForbidden (field : string) : string :=
  "Field '" +:+ field +:+ "' is forbidden".
Definition fieldNotAllowed (field : string) : string :=
  "Field '" +:+ field +:+ "' is not in allowed fields list".
Definition searchFieldNotAllowed (field : string) : string :=
  "Search field '" +:+ field +:+ "' is not in allowed fields list".
Definition rangeFieldNotAllowed (field : string) : string :=
  "Range field '" +:+ field +:+ "' is not in allowed fields list".
Definition orderFieldNotAllowed (field : string) : string :=
  "Order field '" +:+ field +:+ "' is not in allowed fields list".
Definition relationNotAllowed (relation field : string) : string :=
  "Relation '" +:+ relation +:+ "' in field '" +:+ field +:+ "' is not allowed".
Definition startAfterEnd (s e : string) : string :=
  "Range start date '" +:+ s +:+ "' is after end date '" +:+ e +:+ "'".
Definition pageTooSmall : string := "Page number must be greater than 0".
Definition rowsTooSmall : string := "Rows per page must be greater than 0".
Definition rowsTooLarge (maxPageSize : string) : string :=
  "Rows per page cannot exceed " +:+ maxPageSize.
End Msg.

(** The loop of [validateMultiLevelRelation],
    [for (let i = 0; i < parts.length - 1; i++) { ...; break }]: [n] is the
    number of turns left, [parts.length - 1 - i]. *)
Fixpoint validateMultiLevelRelation_loop (allowed : list string) (field : string)
    (parts : list string) (i n : nat) (d : Diag) : Diag :=
  match n with
  | O => d
  | S n' =>
      match parts !! i with
      | Some relation =>
          if negb (arrayIncludes allowed relation)
          then pushError (Msg.relationNotAllowed relation field) d
          else validateMultiLevelRelation_loop allowed field parts (S i) n' d
      | None => d
      end
  end.

Definition validateMultiLevelRelation (field : string)
    (specification : QuerySpecification) (d : Diag) : Diag :=
  match allowedRelations specification with
  | None => d
  | Some allowed =>
      let parts := JsString.split dot field in
      validateMultiLevelRelation_loop allowed field parts 0 (length parts - 1) d
  end.

(** [specification.allowedFields && !specification.allowedFields.includes(field)] *)
Definition notAllowed (specification : QuerySpecification) (field : string) : bool :=
  match allowedFields specification with
  | Some allowed => negb (arrayIncludes allowed field)
  | None => false
  end.

(** [specification.forbiddenFields?.includes(field)] as a condition. *)
Definition isForbidden (specification : QuerySpecification) (field : string) : bool :=
  match forbiddenFields specification with
  | Some forbidden => arrayIncludes forbidden field
  | None => false
  end.

(** [if (field.includes('.')) validateMultiLevelRelation(field, specification, errors)] *)
Definition checkRelations (field : string) (specification : QuerySpecification)
    (d : Diag) : Diag :=
  if JsString.includes dot field then validateMultiLevelRelation field specification d
  else d.

Definition validateFilters_step (specification : QuerySpecification) (d : Diag)
    (entry : string * value) : Diag :=
  let '(field, v) := entry in
  if isNullish v then d
  else
    let d :=
      if notAllowed specification field then
        if isForbidden specification field
        then pushError (Msg.fieldForbidden field) d
        else pushWarning (Msg.fieldNotAllowed field) d
      else d in
    checkRelations field specification d.

Definition validateFilters (filters : Record_) (specification : QuerySpecification)
    (d : Diag) : Diag :=
  fold_left (validateFilters_step specification) filters d.

Definition validateSearchFilters_step (specification : QuerySpecification) (d : Diag)
    (entry : string * value) : Diag :=
  let '(field, v) := entry in
  if isNullish v then d
  else
    let d :=
      if notAllowed specification field
      then pushWarning (Msg.searchFieldNotAllowed field) d
      else d in
    checkRelations field specification d.

Definition validateSearchFilters (searchFilters : Record_)
    (specification : QuerySpecification) (d : Diag) : Diag :=
  fold_left (validateSearchFilters_step specification) searchFilters d.

Definition validateOrderKey (orderKey : string) (specification : QuerySpecification)
    (d : Diag) : Diag :=
  let d :=
    if notAllowed specification orderKey
    then pushWarning (Msg.orderFieldNotAllowed orderKey) d
    else d in
  checkRelations orderKey specification d.

Section Validator.

(** The host's [`${n}`] on a number. *)
Variable Number_toString : number -> string.

(** The host's [new Date(s)] on a string: the time value in milliseconds,
    or [None] for an invalid date (whose time value is [NaN]). *)
Variable Date_parse : string -> option Z.

(** [startDate > endDate] on two [Date] objects: a comparison of time
    values, false as soon as one of them is [NaN]. *)
Definition dateAfter (startDate endDate : option Z) : bool :=
  match startDate, endDate with
  | Some t1, Some t2 => t2 <? t1
  | _, _ => false
  end.

Definition validateRangedFilters_step (specification : QuerySpecification)
    (d : Diag) (range : RangedFilter) : Diag :=
  let d :=
    if notAllowed specification (key range)
    then pushWarning (Msg.rangeFieldNotAllowed (key range)) d
    else d in
  let d := checkRelations (key range) specification d in
  if isValidDate (start range) && isValidDate (end_ range) then
    let startDate := Date_parse (String_ (start range)) in
    let endDate := Date_parse (String_ (end_ range)) in
    if dateAfter startDate endDate
    then pushError (Msg.startAfterEnd (String_ (start range)) (String_ (end_ range))) d
    else d
  else d.

Definition validateRangedFilters (rangedFilters : list RangedFilter)
    (specification : QuerySpecification) (d : Diag) : Diag :=
  fold_left (validateRangedFilters_step specification) rangedFilters d.

Definition validatePagination (query : FilteringQuery)
    (specification : QuerySpecification) (d : Diag) : Diag :=
  let d :=
    match page query with
    | Some p => if JsNumber.ltb p (JsNumber.of_Z 1) then pushError Msg.pageTooSmall d else d
    | None => d
    end in
  match rows query with
  | Some r =>
      if JsNumber.ltb r (JsNumber.of_Z 1) then pushError Msg.rowsTooSmall d
      else
        match maxPageSize specification with
        | Some m =>
            if truthyNumber (Some m) && JsNumber.ltb m r
            then pushError (Msg.rowsTooLarge (Number_toString m)) d
            else d
        | None => d
        end
  | None => d
  end.

Definition validateQuery (query : FilteringQuery)
    (specification : option QuerySpecification) : ValidationResult :=
  let d := {| errors := []; warnings := [] |} in
  match specification with
  | None => {| isValid := true; vr_errors := errors d; vr_warnings := warnings d |}
  | Some spec =>
      let d := match filters query with
               | Some fs => validateFilters fs spec d
               | None => d
               end in
      let d := match searchFilters query with
               | Some sfs => validateSearchFilters sfs spec d
               | None => d
               end in
      let d := match rangedFilters query with
               | Some rfs => validateRangedFilters rfs spec d
               | None => d
               end in
      let d := match orderKey query with
               | Some k => if truthyString (Some k) then validateOrderKey k spec d else d
               | None => d
               end in
      let d := validatePagination query spec d in
      {| isValid := (length (errors d) =? 0)%nat;
         vr_errors := errors d; vr_warnings := warnings d |}
  end.

End Validator.

(** ** A reference instance of the host's date parsing

    [new Date(s)] belongs to the host, not to this code base; the validator is
    parameterised by it.  [RefDate.parse] is one parser for strings of the
    shape [dateRegex] accepts (proleptic Gregorian calendar, UTC), used where
    a concrete time stamp has to be evaluated. *)

Module RefDate.

Definition digitValue (c : ascii) : Z :=
  Z.of_nat (default 0%nat (Ascii.is_nat c)).

Fixpoint number (acc : Z) (s : string) : Z :=
  match s with
  | EmptyString => acc
  | String c s' => number (10 * acc + digitValue c) s'
  end.

Definition field (from len : nat) (s : string) : Z :=
  number 0 (String.substring from len s).

(** Days between 1970-01-01 and the civil date [y]-[m]-[d]. *)
Definition daysFromCivil (y m d : Z) : Z :=
  let y' := if m <=? 2 then y - 1 else y in
  let era := y' / 400 in
  let yoe := y' - era * 400 in
  let mp := if 2 <? m then m - 3 else m + 9 in
  let doy := (153 * mp + 2) / 5 + d - 1 in
  let doe := yoe * 365 + yoe / 4 - yoe / 100 + doy in
  era * 146097 + doe - 719468.

(** The first three digits of the fraction, as milliseconds. *)
Definition millis (s : string) : Z :=
  match String.get 19 s with
  | Some "."%char => number 0 (String.substring 20 3 (s +:+ "00"))
  | _ => 0
  end.

Definition parse (s : string) : option Z :=
  if RegExp.test dateRegex s then
    let y := field 0 4 s in
    let m := field 5 2 s in
    let d := field 8 2 s in
    let hh := field 11 2 s in
    let mm := field 14 2 s in
    let ss := field 17 2 s in
    if (1 <=? m) && (m <=? 12) && (1 <=? d) && (d <=? 31)
       && (hh <=? 23) && (mm <=? 59) && (ss <=? 59)
    then Some (daysFromCivil y m d * 86400000
               + hh * 3600000 + mm * 60000 + ss * 1000 + millis s)
    else None
  else None.

End RefDate.

(** ** A reference instance of the host's number printing

    [`${n}`] belongs to the host as well.  [RefNumber.toString] prints the
    numbers that are integers of magnitude at most [2^53], the infinities
    and [NaN] as the host does; it is used where a concrete message has to
    be evaluated, on such numbers only. *)

Module RefNumber.

(** The integer that a number is, if it is one. *)
Definition toZ (x : number) : option Z :=
  match x with
  | S754_zero _ => Some 0
  | S754_finite s m e =>
      let z := if s then Zneg m else Zpos m in
      if 0 <=? e then Some (z * 2 ^ e)
      else if z mod 2 ^ (- e) =? 0 then Some (z / 2 ^ (- e)) else None
  | _ => None
  end.

Definition decimal (z : Z) : string :=
  if z =? 0 then "0" else NilEmpty.string_of_int (Z.to_int z).

Definition toString (x : number) : string :=
  match x with
  | S754_nan => "NaN"
  | S754_infinity false => "Infinity"
  | S754_infinity true => "-Infinity"
  | _ => match toZ x with
         | Some z => if Z.abs z <=? 2 ^ 53 then decimal z else EmptyString
         | None => EmptyString
         end
  end.

End RefNumber.

(** ** The specification's vocabulary *)

(** The right-nested mapping [{s1: {s2: ... {sn: leaf}}}] over the segments
    [s1; s2; ...; sn]. *)
Definition nested (segments : list string) (leaf : value) : value :=
  foldr (fun segment inner => VObj [(segment, inner)]) leaf segments.

(** The segments of a field path. *)
Definition segments (path : string) : list string := JsString.split dot path.

(** A scalar filter value. *)
Definition isScalar (v : value) : bool :=
  match v with
  | VBool _ | VNum _ | VStr _ => true
  | _ => false
  end.

(** The key [k] appears somewhere in [v]. *)
Fixpoint mentionsKey (k : string) (v : value) : bool :=
  match v with
  | VArr items => existsb (mentionsKey k) items
  | VObj props =>
      existsb (fun p => let '(k', v') := p in String.eqb k' k || mentionsKey k v') props
  | _ => false
  end.

(** What one entry of [filters] contributes to the AND list. *)
Definition equalityConditions (entry : string * value) : list value :=
  let '(field, v) := entry in
  if isNullish v then []
  else match v with
       | VArr items => [OR_ (map (fun item => nested (segments field) item) items)]
       | _ => [nested (segments field) v]
       end.

(** What one entry of [searchFilters] contributes, before any grouping. *)
Definition searchConditions (specification : option QuerySpecification)
    (entry : string * value) : list value :=
  let '(field, v) := entry in
  if isNullish v then []
  else [nested (segments field) (searchLeaf v (resolveSearchMode specification))].

(** What one ranged filter contributes to the AND list. *)
Definition rangeCondition (range : RangedFilter) : value :=
  nested (segments (key range)) (rangeLeaf range).

(** The relation hops of a path: every segment but the last. *)
Definition relationHops (path : string) : list string :=
  removelast (segments path).

(** The errors of the relation check on one path: the first hop, from the
    left, that is not an allowed relation. *)
Definition relationErrors (specification : QuerySpecification) (path : string)
  : list string :=
  match allowedRelations specification with
  | None => []
  | Some allowed =>
      match find (fun hop => negb (arrayIncludes allowed hop)) (relationHops path) with
      | Some hop => [Msg.relationNotAllowed hop path]
      | None => []
      end
  end.

(** Strings of decimal digits. *)
Fixpoint allDigits (s : string) : Prop :=
  match s with
  | EmptyString => True
  | String a s' => RegExp.isDigit a = true /\ allDigits s'
  end.

Definition digits (n : nat) (s : string) : Prop :=
  String.length s = n /\ allDigits s.

(** The pattern [YYYY-MM-DDTHH:MM:SS[.fraction]Z]. *)
Definition isoUtcPattern (s : string) : Prop :=
  exists YYYY MM DD hh mm ss fraction,
    s = YYYY +:+ "-" +:+ MM +:+ "-" +:+ DD +:+ "T"
        +:+ hh +:+ ":" +:+ mm +:+ ":" +:+ ss +:+ fraction +:+ "Z"
    /\ digits 4 YYYY /\ digits 2 MM /\ digits 2 DD
    /\ digits 2 hh /\ digits 2 mm /\ digits 2 ss
    /\ (fraction = EmptyString
        \/ exists f, fraction = "." +:+ f /\ f <> EmptyString /\ allDigits f).

(** The conditions the builder puts in the AND list, stage by stage. *)
Definition andConditions (filter : FilteringQuery)
    (specification : option QuerySpecification) : list value :=
  from_option buildWhereQuery [] (filters filter)
  ++ from_option (fun sfs => buildSearchQuery sfs specification) [] (searchFilters filter)
  ++ from_option buildRangedFilter [] (rangedFilters filter).

(** [take] and [skip] as the builder computes them from [page] and [rows],
    in the arithmetic of the host: a [page] or [rows] that is absent, [0] or
    [NaN] counts as not given, and [rows] is only looked at when [page] is
    given. *)
Definition pagination (page rows : option number) : number * number :=
  let ten := JsNumber.of_Z 10 in
  let one := JsNumber.of_Z 1 in
  match page with
  | Some p =>
      if JsNumber.truthy p then
        match rows with
        | Some r =>
            if JsNumber.truthy r
            then (r, JsNumber.mul (JsNumber.sub p one) r)
            else (ten, JsNumber.mul ten (JsNumber.sub p one))
        | None => (ten, JsNumber.mul ten (JsNumber.sub p one))
        end
      else (ten, JsNumber.of_Z 0)
  | None => (ten, JsNumber.of_Z 0)
  end.

(** The sentence "a scalar filter value never puts an OR key in its
    condition", for every field name. *)
Definition scalarNeverMentionsOR : Prop :=
  forall (field : string) (v : value),
    isScalar v = true ->
    Forall (fun c => mentionsKey "OR" c = false) (buildWhereQuery [(field, v)]).

(** The sentence "more than one search field present: exactly one OR group;
    exactly one present: the condition directly", for a reading [present] of
    which entries of [searchFilters] count as present. *)
Definition searchGroupingAsWorded (present : string * value -> bool) : Prop :=
  forall (sfs : Record_) (specification : option QuerySpecification),
    let n := length (filter (fun e => present e = true) sfs) in
    ((1 < n)%nat ->
       buildSearchQuery sfs specification
       = [OR_ (flat_map (searchConditions specification) sfs)])
    /\ (n = 1%nat ->
       buildSearchQuery sfs specification
       = flat_map (searchConditions specification) sfs).

(** The sentence "[take = rows ?? 10]; [skip] is [(page-1)*rows],
    [10*(page-1)] or [0] according to which of [page] and [rows] are set". *)
Definition paginationAsWorded : Prop :=
  forall (filter : FilteringQuery) (specification : option QuerySpecification),
    exists q, buildFilterQuery filter specification = Some q
      /\ take q = default (JsNumber.of_Z 10) (rows filter)
      /\ skip q = match page filter, rows filter with
                  | Some p, Some r =>
                      JsNumber.mul (JsNumber.sub p (JsNumber.of_Z 1)) r
                  | Some p, None =>
                      JsNumber.mul (JsNumber.of_Z 10) (JsNumber.sub p (JsNumber.of_Z 1))
                  | None, _ => JsNumber.of_Z 0
                  end.

(** The request with nothing set. *)
Definition emptyQuery : FilteringQuery :=
  {| filters := None; searchFilters := None; rangedFilters := None;
     orderKey := None; orderRule := None; page := None; rows := None |}.

(** The ordering the builder emits. *)
Definition ordering (orderKey : option string) (orderRule : option OrderDirection)
  : value :=
  match orderKey with
  | Some k =>
      if truthyString (Some k)
      then nested (segments k) (VStr (OrderDirection_str (default asc orderRule)))
      else VObj []
  | None => VObj []
  end.

(** The conditions of a search, grouped the way the builder groups them:
    with two or more keys in [searchFilters], one OR group unless there is
    no condition at all; with at most one key, the conditions themselves. *)
Definition groupedSearch (specification : option QuerySpecification)
    (sfs : Record_) : list value :=
  let conditions := flat_map (searchConditions specification) sfs in
  if (1 <? length sfs)%nat then
    match conditions with
    | [] => []
    | _ :: _ => [OR_ conditions]
    end
  else conditions.

(** *** Diagnostics, source by source *)

(** Appending diagnostics to both arrays. *)
Definition emit (es ws : list string) (d : Diag) : Diag :=
  {| errors := errors d ++ es; warnings := warnings d ++ ws |}.

Definition filterErrors (specification : QuerySpecification)
    (entry : string * value) : list string :=
  let '(field, v) := entry in
  if isNullish v then []
  else (if notAllowed specification field && isForbidden specification field
        then [Msg.fieldForbidden field] else [])
       ++ relationErrors specification field.

Definition filterWarnings (specification : QuerySpecification)
    (entry : string * value) : list string :=
  let '(field, v) := entry in
  if isNullish v then []
  else if notAllowed specification field && negb (isForbidden specification field)
       then [Msg.fieldNotAllowed field] else [].

Definition searchErrors (specification : QuerySpecification)
    (entry : string * value) : list string :=
  let '(field, v) := entry in
  if isNullish v then [] else relationErrors specification field.

Definition searchWarnings (specification : QuerySpecification)
    (entry : string * value) : list string :=
  let '(field, v) := entry in
  if isNullish v then []
  else if notAllowed specification field
       then [Msg.searchFieldNotAllowed field] else [].

(** The start-after-end error of one ranged filter, if any. *)
Definition dateErrors (Date_parse : string -> option Z) (range : RangedFilter)
  : list string :=
  if isValidDate (start range) && isValidDate (end_ range)
     && dateAfter (Date_parse (String_ (start range)))
                  (Date_parse (String_ (end_ range)))
  then [Msg.startAfterEnd (String_ (start range)) (String_ (end_ range))]
  else [].

Definition rangeErrors (Date_parse : string -> option Z)
    (specification : QuerySpecification) (range : RangedFilter) : list string :=
  relationErrors specification (key range) ++ dateErrors Date_parse range.

Definition rangeWarnings (specification : QuerySpecification)
    (range : RangedFilter) : list string :=
  if notAllowed specification (key range)
  then [Msg.rangeFieldNotAllowed (key range)] else [].

Definition orderErrors (specification : QuerySpecification)
    (orderKey : option string) : list string :=
  match orderKey with
  | Some k => if truthyString (Some k) then relationErrors specification k else []
  | None => []
  end.

Definition orderWarnings (specification : QuerySpecification)
    (orderKey : option string) : list string :=
  match orderKey with
  | Some k =>
      if truthyString (Some k) && notAllowed specification k
      then [Msg.orderFieldNotAllowed k] else []
  | None => []
  end.

Definition paginationErrors (Number_toString : number -> string)
    (specification : QuerySpecification) (query : FilteringQuery) : list string :=
  errors (validatePagination Number_toString query specification
            {| errors := []; warnings := [] |}).

(** Every error of a validation, in the order the validator reports them. *)
Definition allErrors (Number_toString : number -> string)
    (Date_parse : string -> option Z)
    (specification : QuerySpecification) (query : FilteringQuery) : list string :=
  flat_map (filterErrors specification) (default [] (filters query))
  ++ flat_map (searchErrors specification) (default [] (searchFilters query))
  ++ flat_map (rangeErrors Date_parse specification) (default [] (rangedFilters query))
  ++ orderErrors specification (orderKey query)
  ++ paginationErrors Number_toString specification query.

(** Every warning of a validation, in order. *)
Definition allWarnings (specification : QuerySpecification)
    (query : FilteringQuery) : list string :=
  flat_map (filterWarnings specification) (default [] (filters query))
  ++ flat_map (searchWarnings specification) (default [] (searchFilters query))
  ++ flat_map (rangeWarnings specification) (default [] (rangedFilters query))
  ++ orderWarnings specification (orderKey query).

(** The time stamps of a ranged filter are in the pattern and the start is
    strictly after the end. *)
Definition startAfterEnd (Date_parse : string -> option Z) (range : RangedFilter)
  : Prop :=
  exists s e t1 t2,
    start range = VStr s /\ end_ range = VStr e
    /\ isoUtcPattern s /\ isoUtcPattern e
    /\ Date_parse s = Some t1 /\ Date_parse e = Some t2 /\ t2 < t1.

(** The first character of a message. *)
Definition firstChar (s : string) : option ascii :=
  match s with
  | EmptyString => None
  | String a _ => Some a
  end.

(** Sample specification and requests. *)
Definition sampleSpec : QuerySpecification :=
  {| allowedFields := Some ["name"; "email"];
     allowedOperators := None;
     allowedRelations := Some ["a"];
     maxPageSize := Some (JsNumber.of_Z 100);
     defaultPageSize := None;
     requiredFields := None;
     forbiddenFields := Some ["password"; "secret"];
     defaultSearchMode := None |}.

Definition requestFilteringPassword : FilteringQuery :=
  {| filters := Some [("password", VStr "hunter2")];
     searchFilters := None; rangedFilters := None;
     orderKey := None; orderRule := None; page := None; rows := None |}.

Definition requestSearchingPassword : FilteringQuery :=
  {| filters := Some [("name", VStr "ann")];
     searchFilters := Some [("password", VStr "hunter")];
     rangedFilters := None;
     orderKey := None; orderRule := None; page := None; rows := None |}.

Definition invertedDateRange : RangedFilter :=
  {| key := "createdAt";
     start := VStr "2023-12-31T00:00:00Z";
     end_ := VStr "2023-01-01T00:00:00Z" |}.

Definition invertedNumberRange : RangedFilter :=
  {| key := "createdAt"; start := VNum 100; end_ := VNum 1 |}.

(** *** Requests and conditions, taken apart *)

(** The entries that carry a value. *)
Definition withoutNulls (entries : Record_) : list (string * value) :=
  filter (fun e => isNullish e.2 = false) entries.

(** The request with the null-valued entries of [filters] removed. *)
Definition dropNullFilters (query : FilteringQuery) : FilteringQuery :=
  {| filters := withoutNulls <$> filters query;
     searchFilters := searchFilters query;
     rangedFilters := rangedFilters query;
     orderKey := orderKey query; orderRule := orderRule query;
     page := page query; rows := rows query |}.

(** The request with the null-valued entries of [filters] and of
    [searchFilters] removed. *)
Definition dropNulls (query : FilteringQuery) : FilteringQuery :=
  {| filters := withoutNulls <$> filters query;
     searchFilters := withoutNulls <$> searchFilters query;
     rangedFilters := rangedFilters query;
     orderKey := orderKey query; orderRule := orderRule query;
     page := page query; rows := rows query |}.

(** The request with another [orderKey]. *)
Definition withOrderKey (k : option string) (query : FilteringQuery) : FilteringQuery :=
  {| filters := filters query;
     searchFilters := searchFilters query;
     rangedFilters := rangedFilters query;
     orderKey := k; orderRule := orderRule query;
     page := page query; rows := rows query |}.

(** The field paths a request puts to use: the keys of its non-null filters
    and search filters, the keys of its ranged filters, a non-empty
    [orderKey]. *)
Definition usedFields (query : FilteringQuery) : list string :=
  map fst (withoutNulls (default [] (filters query)))
  ++ map fst (withoutNulls (default [] (searchFilters query)))
  ++ map key (default [] (rangedFilters query))
  ++ match orderKey query with
     | Some k => if truthyString (Some k) then [k] else []
     | None => []
     end.

(** [v[k1][k2]...[kn]]: reading a value along a list of keys; reading a
    property of something that is not an object gives [undefined] here. *)
Definition getPath (keys : list string) (v : value) : value :=
  fold_left (fun cur k => match cur with
                          | VObj props => getProp props k
                          | _ => VUndefined
                          end) keys v.

(** A specification that configures nothing. *)
Definition blankSpec : QuerySpecification :=
  {| allowedFields := None; allowedOperators := None; allowedRelations := None;
     maxPageSize := None; defaultPageSize := None; requiredFields := None;
     forbiddenFields := None; defaultSearchMode := None |}.


(** * Properties *)

(** ** Splitting and joining *)

Module JsStringFacts.
Import JsString.

Lemma split_nonempty c s : split c s <> [].
Proof.
  destruct s as [|a s]; simpl; [done|].
  destruct (Ascii.eqb a c); [done|]. by destruct (split c s).
Qed.

Lemma split_length c s : length (split c s) = S (count c s).
Proof.
  induction s as [|a s IH]; simpl; [done|].
  destruct (Ascii.eqb a c); simpl; [by rewrite IH|].
  destruct (split c s) eqn:E; simpl in *; [done|]. by rewrite <- IH.
Qed.

Lemma join_cons_char c a seg rest :
  join c (String a seg :: rest) = String a (join c (seg :: rest)).
Proof. by destruct rest. Qed.

Lemma join_split c s : join c (split c s) = s.
Proof.
  induction s as [|a s IH]; simpl; [done|].
  pose proof (split_nonempty c s) as Hs.
  destruct (Ascii.eqb_spec a c) as [->|Hne];
    destruct (split c s) as [|seg rest]; try done.
  - change (String c (join c (seg :: rest)) = String c s). by rewrite IH.
  - by rewrite join_cons_char, IH.
Qed.

Lemma split_segments_free c s :
  Forall (fun seg => includes c seg = false) (split c s).
Proof.
  induction s as [|a s IH]; simpl.
  - by constructor.
  - destruct (Ascii.eqb a c) eqn:E.
    + by constructor.
    + destruct (split c s) as [|seg rest]; simpl.
      * constructor; [|done]. simpl. by rewrite E.
      * inversion IH; subst. constructor; [|done]. simpl. by rewrite E.
Qed.

Lemma count_includes c s : includes c s = bool_decide (count c s <> 0%nat).
Proof.
  induction s as [|a s IH]; simpl; [done|].
  destruct (Ascii.eqb a c); simpl; [done|]. by rewrite IH.
Qed.

Lemma split_plain c s : includes c s = false -> split c s = [s].
Proof.
  induction s as [|a s IH]; simpl; [done|].
  destruct (Ascii.eqb a c); [done|]. intros H. by rewrite IH.
Qed.

End JsStringFacts.

(** ** The folding primitive *)

Lemma nested_snoc (pre : list string) (seg : string) (leaf : value) :
  nested (pre ++ [seg]) leaf = nested pre (VObj [(seg, leaf)]).
Proof. unfold nested. by rewrite foldr_app. Qed.

Lemma pop_snoc {A} (l : list A) :
  l <> [] -> exists x, pop l = (Some x, removelast l) /\ l = removelast l ++ [x].
Proof.
  induction l as [|a l IH]; [done|]. intros _.
  destruct l as [|b l].
  - by exists a.
  - destruct IH as (x & Hpop & Hl); [done|].
    exists x. unfold pop in *. split.
    + f_equal. by injection Hpop.
    + change (removelast (a :: b :: l)) with (a :: removelast (b :: l)).
      change ((a :: removelast (b :: l)) ++ [x])
        with (a :: (removelast (b :: l) ++ [x])).
      by rewrite <- Hl.
Qed.

(** The loop wraps the first [n] parts, leftmost outermost. *)
Lemma wrapRightToLeft_nested (parts : list string) (n : nat) (current : value) :
  (n <= length parts)%nat ->
  wrapRightToLeft parts n current = nested (firstn n parts) current.
Proof.
  revert current. induction n as [|i IH]; intros current Hn; simpl.
  - done.
  - destruct (lookup_lt_is_Some_2 parts i) as [x Hx]; [lia|].
    rewrite IH by lia. rewrite Hx. simpl.
    by rewrite (take_S_r _ _ _ Hx), nested_snoc.
Qed.

Lemma foldPath_nested (path : string) (leaf : value) :
  foldPath path leaf = nested (segments path) leaf.
Proof.
  unfold foldPath, segments.
  destruct (pop_snoc (JsString.split dot path)) as (x & -> & Hl).
  { apply JsStringFacts.split_nonempty. }
  rewrite wrapRightToLeft_nested by done.
  rewrite firstn_all. simpl. rewrite <- nested_snoc. by rewrite <- Hl.
Qed.

Lemma nested_plain (path : string) (leaf : value) :
  JsString.includes dot path = false ->
  nested (segments path) leaf = VObj [(path, leaf)].
Proof.
  intros H. unfold segments. by rewrite JsStringFacts.split_plain.
Qed.

Lemma buildNestedWhere_nested (key : string) (v : value) :
  buildNestedWhere key v = nested (segments key) v.
Proof.
  unfold buildNestedWhere. destruct (JsString.includes dot key) eqn:E; simpl.
  - apply foldPath_nested.
  - by rewrite nested_plain.
Qed.

Lemma buildNestedSearch_nested (key : string) (v : value) (m : SearchMode) :
  buildNestedSearch key v m = nested (segments key) (searchLeaf v m).
Proof.
  unfold buildNestedSearch. destruct (JsString.includes dot key) eqn:E; simpl.
  - apply foldPath_nested.
  - by rewrite nested_plain.
Qed.

Lemma buildNestedOrderBy_nested (k : string) (rule : OrderDirection) :
  buildNestedOrderBy k rule = nested (segments k) (VStr (OrderDirection_str rule)).
Proof.
  unfold buildNestedOrderBy. destruct (JsString.includes dot k) eqn:E; simpl.
  - apply foldPath_nested.
  - by rewrite nested_plain.
Qed.

(** C1. For every field path and every leaf, each of the four nested builders
    (equality and OR members, search leaves, range leaves, order direction)
    returns the right-nested mapping over the path's segments: a path with
    [k] dots has [k + 1] segments, which joined by dots give the path back
    and contain no dot themselves; the result nests them left to right,
    outermost first, around the leaf; a path without dots gives
    [{path: leaf}] with no wrapping. *)
Theorem C1_nested_fold (path : string) (leaf v startV endV : value)
    (m : SearchMode) (rule : OrderDirection) :
  let segs := segments path in
  length segs = S (JsString.count dot path)
  /\ JsString.join dot segs = path
  /\ Forall (fun seg => JsString.includes dot seg = false) segs
  /\ buildNestedWhere path leaf = nested segs leaf
  /\ buildNestedSearch path v m = nested segs (searchLeaf v m)
  /\ buildNestedRange {| key := path; start := startV; end_ := endV |}
     = nested segs (VObj [("gte", startV); ("lte", endV)])
  /\ buildNestedOrderBy path rule = nested segs (VStr (OrderDirection_str rule))
  /\ (if JsString.includes dot path then True
      else nested segs leaf = VObj [(path, leaf)]).
Proof.
  cbv zeta. split_and!.
  - apply JsStringFacts.split_length.
  - apply JsStringFacts.join_split.
  - apply JsStringFacts.split_segments_free.
  - apply buildNestedWhere_nested.
  - apply buildNestedSearch_nested.
  - apply foldPath_nested.
  - apply buildNestedOrderBy_nested.
  - destruct (JsString.includes dot path) eqn:E; [done|]. by apply nested_plain.
Qed.

Example fold_three_levels :
  buildNestedWhere "a.b.c" (VObj [("op", VStr "v")])
  = VObj [("a", VObj [("b", VObj [("c", VObj [("op", VStr "v")])])])].
Proof. reflexivity. Qed.

(** ** The AND list *)

Lemma fold_left_append {A B} (f : A -> list B) (l : list A) (acc : list B) :
  fold_left (fun acc x => acc ++ f x) l acc = acc ++ flat_map f l.
Proof.
  revert acc. induction l as [|x l IH]; intros acc; simpl.
  - by rewrite app_nil_r.
  - by rewrite IH, app_assoc.
Qed.

Lemma fold_left_ext {A B} (f g : B -> A -> B) (l : list A) (b : B) :
  (forall b a, f b a = g b a) -> fold_left f l b = fold_left g l b.
Proof.
  intros H. revert b. induction l as [|x l IH]; intros b; simpl; [done|].
  by rewrite H, IH.
Qed.

Lemma buildWhereQuery_step_spec (acc : list value) (entry : string * value) :
  buildWhereQuery_step acc entry = acc ++ equalityConditions entry.
Proof.
  destruct entry as [field v]. unfold buildWhereQuery_step, equalityConditions.
  destruct (isNullish v) eqn:Hn; [by rewrite app_nil_r|].
  destruct (JsString.includes dot field) eqn:Hd.
  - destruct v; try by rewrite buildNestedWhere_nested.
    do 3 f_equal. apply map_ext. intros. apply buildNestedWhere_nested.
  - destruct v; try by rewrite nested_plain.
    do 3 f_equal. apply map_ext. intros. by rewrite nested_plain.
Qed.

Lemma buildWhereQuery_spec (fs : Record_) :
  buildWhereQuery fs = flat_map equalityConditions fs.
Proof.
  unfold buildWhereQuery.
  rewrite (fold_left_ext _ (fun acc x => acc ++ equalityConditions x)).
  - by rewrite fold_left_append.
  - apply buildWhereQuery_step_spec.
Qed.

Lemma mentionsKey_nested (k : string) (segs : list string) (leaf : value) :
  mentionsKey k (nested segs leaf) = bool_decide (k ∈ segs) || mentionsKey k leaf.
Proof.
  induction segs as [|seg segs IH]; simpl; [done|].
  rewrite IH, orb_false_r.
  destruct (String.eqb_spec seg k) as [->|Hne]; simpl.
  - rewrite bool_decide_eq_true_2; [done|]. by apply elem_of_cons; left.
  - f_equal. apply bool_decide_ext. rewrite elem_of_cons. split; [by right | by intros [->|?]].
Qed.

Lemma searchQuery_nested (field : string) (v : value) (m : SearchMode) :
  (if JsString.includes dot field then buildNestedSearch field v m
   else VObj [(field, searchLeaf v m)])
  = nested (segments field) (searchLeaf v m).
Proof.
  destruct (JsString.includes dot field) eqn:E.
  - apply buildNestedSearch_nested.
  - by rewrite nested_plain.
Qed.

Lemma buildSearchQuery_step_spec (multi : bool) spec (w o : list value)
    (entry : string * value) :
  buildSearchQuery_step multi spec (w, o) entry
  = if multi then (w, o ++ searchConditions spec entry)
    else (w ++ searchConditions spec entry, o).
Proof.
  destruct entry as [field v]. unfold buildSearchQuery_step, searchConditions.
  destruct (isNullish v).
  - rewrite !app_nil_r. by destruct multi.
  - rewrite searchQuery_nested. by destruct multi.
Qed.

Lemma buildSearchQuery_loop (multi : bool) spec (sfs : Record_) (w o : list value) :
  fold_left (buildSearchQuery_step multi spec) sfs (w, o)
  = if multi then (w, o ++ flat_map (searchConditions spec) sfs)
    else (w ++ flat_map (searchConditions spec) sfs, o).
Proof.
  revert w o. induction sfs as [|e sfs IH]; intros w o; cbn [fold_left flat_map].
  - rewrite !app_nil_r. by destruct multi.
  - rewrite buildSearchQuery_step_spec. destruct multi; rewrite IH;
      by rewrite <- app_assoc.
Qed.

Lemma buildSearchQuery_spec (sfs : Record_) spec :
  buildSearchQuery sfs spec = groupedSearch spec sfs.
Proof.
  unfold buildSearchQuery, groupedSearch. rewrite buildSearchQuery_loop.
  destruct (1 <? length sfs)%nat; simpl; [|done].
  by destruct (flat_map (searchConditions spec) sfs).
Qed.

Lemma buildRangedFilter_spec (rfs : list RangedFilter) :
  buildRangedFilter rfs = map rangeCondition rfs.
Proof.
  unfold buildRangedFilter.
  rewrite (fold_left_ext _ (fun acc r => acc ++ [rangeCondition r])).
  - rewrite fold_left_append. simpl. induction rfs; simpl; by f_equal.
  - intros acc r. unfold buildRangedFilter_step, rangeCondition.
    destruct (JsString.includes dot (key r)) eqn:E.
    + unfold buildNestedRange. by rewrite foldPath_nested.
    + by rewrite nested_plain.
Qed.

Lemma buildPagination_spec (filter : FilteringQuery) :
  buildPagination filter = pagination (page filter) (rows filter).
Proof.
  unfold buildPagination, pagination, truthyNumber.
  destruct (page filter) as [p|]; [|done].
  destruct (JsNumber.truthy p); [|done].
  destruct (rows filter) as [r|]; [|done]. by destruct (JsNumber.truthy r).
Qed.

(** The builder never fails, and its result has this closed form. *)
Lemma buildFilterQuery_spec (filter : FilteringQuery) spec :
  buildFilterQuery filter spec
  = Some {| where_ := VObj [("AND", VArr (andConditions filter spec))];
            orderBy := ordering (orderKey filter) (orderRule filter);
            take := fst (pagination (page filter) (rows filter));
            skip := snd (pagination (page filter) (rows filter)) |}.
Proof.
  unfold buildFilterQuery, andConditions, ordering.
  rewrite buildPagination_spec.
  destruct (pagination (page filter) (rows filter)) as [t k].
  destruct (filters filter) as [fs|], (searchFilters filter) as [sfs|],
    (rangedFilters filter) as [rfs|]; simpl;
    rewrite ?app_nil_r;
    (destruct (orderKey filter) as [[|c k']|]; simpl;
     rewrite ?buildNestedOrderBy_nested, ?app_assoc; reflexivity).
Qed.

(** C2, as amended. Every entry of [filters] contributes to the top-level AND
    list, in entry order: nothing when its value is null or undefined;
    exactly one [{OR: [...]}] with one independently folded member per
    element, in element order, when its value is a list; the single folded
    condition, with no OR wrapper, otherwise.  The folded condition of a
    scalar mentions the key OR exactly when a segment of the field path is
    itself named OR. *)
Theorem C2_equality_filters (filter : FilteringQuery)
    (spec : option QuerySpecification) (fs : Record_) (field : string)
    (v : value) (items : list value) :
  buildWhereQuery fs = flat_map equalityConditions fs
  /\ (exists q rest,
        buildFilterQuery filter spec = Some q
        /\ where_ q
           = VObj [("AND",
               VArr (from_option (flat_map equalityConditions) [] (filters filter)
                     ++ rest))])
  /\ equalityConditions (field, VArr items)
     = [VObj [("OR", VArr (map (nested (segments field)) items))]]
  /\ (if isNullish v || isArray v then True
      else equalityConditions (field, v) = [nested (segments field) v])
  /\ (if isScalar v
      then mentionsKey "OR" (nested (segments field) v)
           = bool_decide ("OR" ∈ segments field)
      else True).
Proof.
  split_and!.
  - apply buildWhereQuery_spec.
  - eexists _, _. split; [apply buildFilterQuery_spec|]. simpl.
    unfold andConditions. destruct (filters filter); simpl; [|done].
    by rewrite buildWhereQuery_spec.
  - done.
  - by destruct v.
  - destruct v; simpl; try done; by rewrite mentionsKey_nested, orb_false_r.
Qed.

(** C2, as worded, fails for a field that is itself named OR. *)
Lemma C2_counterexample_field_named_OR : ~ scalarNeverMentionsOR.
Proof.
  intros H. specialize (H "OR" (VNum 1) eq_refl).
  inversion H as [|c l Hc _]; subst. vm_compute in Hc. discriminate.
Qed.

Example equality_round_trip :
  buildWhereQuery [("author.profile.department.region", VArr [VStr "US"; VStr "EU"])]
  = [VObj [("OR", VArr
      [VObj [("author", VObj [("profile", VObj [("department",
         VObj [("region", VStr "US")])])])];
       VObj [("author", VObj [("profile", VObj [("department",
         VObj [("region", VStr "EU")])])])]])]].
Proof. reflexivity. Qed.

(** ** Search conditions *)

Lemma searchConditions_nonnull spec (sfs : Record_) :
  flat_map (searchConditions spec) sfs
  = map (fun e => nested (segments e.1) (searchLeaf e.2 (resolveSearchMode spec)))
      (filter (fun e => isNullish e.2 = false) sfs).
Proof.
  induction sfs as [|[field v] sfs IH]; [done|].
  cbn [flat_map]. unfold searchConditions at 1.
  destruct (isNullish v) eqn:Hv.
  - rewrite filter_cons_False; [apply IH|]. simpl. congruence.
  - rewrite filter_cons_True by done. simpl. by rewrite IH.
Qed.

(** C3, as amended. With two or more keys in [searchFilters] and at least one
    non-null value, the builder appends exactly one [{OR: [...]}] with one
    member per non-null field, in entry order; with two or more keys and no
    non-null value it appends nothing; with at most one key it appends the
    field's condition directly, without OR.  Each member is the field path
    folded around [{contains: value, mode: m}], where [m] is the
    specification's [defaultSearchMode] when set and [insensitive]
    otherwise. *)
Theorem C3_search_grouping (request : FilteringQuery) (sfs : Record_)
    (spec : option QuerySpecification) (s : QuerySpecification) :
  let members :=
    map (fun e => nested (segments e.1)
                    (VObj [("contains", e.2);
                           ("mode", VStr (SearchMode_str (resolveSearchMode spec)))]))
        (filter (fun e => isNullish e.2 = false) sfs) in
  buildSearchQuery sfs spec
  = (if (1 <? length sfs)%nat
     then match members with [] => [] | _ :: _ => [VObj [("OR", VArr members)]] end
     else members)
  /\ resolveSearchMode None = insensitive
  /\ resolveSearchMode (Some s) = default insensitive (defaultSearchMode s)
  /\ (exists q before after,
        buildFilterQuery request spec = Some q
        /\ where_ q
           = VObj [("AND",
               VArr (before
                     ++ from_option (fun sfs => buildSearchQuery sfs spec) []
                          (searchFilters request)
                     ++ after))]).
Proof.
  cbv zeta. split_and!; try done.
  - rewrite buildSearchQuery_spec. unfold groupedSearch.
    by rewrite searchConditions_nonnull.
  - eexists _, _, _. split; [apply buildFilterQuery_spec|]. done.
Qed.

(** C3, as worded, fails under both readings of "present": counting every
    key, two null-valued keys give no OR group at all; counting non-null
    values only, one non-null value next to a null one is still wrapped. *)
Lemma C3_counterexample_null_values :
  ~ searchGroupingAsWorded (fun _ => true)
  /\ ~ searchGroupingAsWorded (fun e => negb (isNullish e.2)).
Proof.
  split; intros H.
  - destruct (H [("a", VNull); ("b", VNull)] None) as [H2 _].
    specialize (H2 ltac:(vm_compute; lia)). vm_compute in H2. discriminate.
  - destruct (H [("a", VStr "x"); ("b", VNull)] None) as [_ H1].
    specialize (H1 eq_refl). vm_compute in H1. discriminate.
Qed.

(** C9. The OR wrapping is decided by the number of keys of [searchFilters],
    null values included: with two or more keys of which exactly one has a
    non-null value, the single condition is wrapped in a one-element OR
    group; with two or more keys that are all null, nothing is appended. *)
Theorem C9_search_key_count (sfs : Record_) (spec : option QuerySpecification) :
  (2 <= length sfs)%nat ->
  (forall field v,
     filter (fun e => isNullish e.2 = false) sfs = [(field, v)] ->
     buildSearchQuery sfs spec
     = [VObj [("OR", VArr [nested (segments field)
                             (searchLeaf v (resolveSearchMode spec))])]])
  /\ (Forall (fun e => isNullish e.2 = true) sfs ->
      buildSearchQuery sfs spec = []).
Proof.
  intros Hlen. rewrite buildSearchQuery_spec. unfold groupedSearch.
  rewrite searchConditions_nonnull.
  assert ((1 <? length sfs)%nat = true) as -> by (apply Nat.ltb_lt; lia).
  split.
  - intros field v ->. done.
  - intros Hall.
    assert (filter (fun e => isNullish e.2 = false) sfs = []) as ->; [|done].
    clear Hlen. induction Hall as [|e l He _ IH]; [done|].
    rewrite filter_cons_False; [done|congruence].
Qed.

Lemma C9_search_key_count_witness :
  (2 <= length [("title", VStr "react"); ("body", VNull)])%nat
  /\ buildSearchQuery [("title", VStr "react"); ("body", VNull)] None
     = [VObj [("OR", VArr [VObj [("title",
          VObj [("contains", VStr "react"); ("mode", VStr "insensitive")])]])]]
  /\ buildSearchQuery [("title", VNull); ("body", VUndefined)] None = [].
Proof.
  split_and!.
  - simpl; lia.
  - exact (proj1 (C9_search_key_count [("title", VStr "react"); ("body", VNull)]
                    None ltac:(simpl; lia))
             "title" (VStr "react") eq_refl).
  - exact (proj2 (C9_search_key_count [("title", VNull); ("body", VUndefined)]
                    None ltac:(simpl; lia))
             ltac:(repeat constructor)).
Defined.

(** ** Pagination and the shape of the result *)

(** C4, as amended. For every request the builder returns [take] and [skip]
    as [pagination] gives them, in the arithmetic of the host: [take = rows]
    and [skip = (page-1)*rows] when [page] and [rows] are both set and
    truthy (neither [0] nor [NaN]); [take = 10] and [skip = 10*(page-1)]
    when [page] is set and truthy but [rows] is unset, [0] or [NaN];
    [take = 10] and [skip = 0] when [page] is unset, [0] or [NaN], whatever
    [rows] is.  In particular [page=2, rows=25] gives [skip=25, take=25] and
    [page=3] without [rows] gives [skip=20, take=10]. *)
Theorem C4_pagination (request : FilteringQuery) (spec : option QuerySpecification)
    (p r : number) (anyRows : option number) :
  let one := JsNumber.of_Z 1 in
  let ten := JsNumber.of_Z 10 in
  (exists q, buildFilterQuery request spec = Some q
     /\ (take q, skip q) = pagination (page request) (rows request))
  /\ pagination (Some p) (Some r)
     = (if JsNumber.truthy p then
          if JsNumber.truthy r
          then (r, JsNumber.mul (JsNumber.sub p one) r)
          else (ten, JsNumber.mul ten (JsNumber.sub p one))
        else (ten, JsNumber.of_Z 0))
  /\ pagination (Some p) None
     = (if JsNumber.truthy p
        then (ten, JsNumber.mul ten (JsNumber.sub p one))
        else (ten, JsNumber.of_Z 0))
  /\ pagination None anyRows = (ten, JsNumber.of_Z 0)
  /\ JsNumber.truthy (JsNumber.of_Z 0) = false
  /\ JsNumber.truthy JsNumber.NaN = false
  /\ pagination (Some (JsNumber.of_Z 2)) (Some (JsNumber.of_Z 25))
     = (JsNumber.of_Z 25, JsNumber.of_Z 25)
  /\ pagination (Some (JsNumber.of_Z 3)) None = (ten, JsNumber.of_Z 20).
Proof.
  cbv zeta. split_and!; try done.
  eexists. split; [apply buildFilterQuery_spec|]. simpl.
  by destruct (pagination (page request) (rows request)).
Qed.

(** C4, as worded, fails: [rows] without [page] leaves [take] at [10]. *)
Lemma C4_counterexample_rows_without_page : ~ paginationAsWorded.
Proof.
  intros H.
  destruct (H {| filters := None; searchFilters := None; rangedFilters := None;
                 orderKey := None; orderRule := None;
                 page := None; rows := Some (JsNumber.of_Z 25) |} None)
    as (q & Hq & Htake & _).
  vm_compute in Hq. injection Hq as <-. vm_compute in Htake. discriminate.
Qed.

Example pagination_rows_zero :
  buildPagination {| filters := None; searchFilters := None; rangedFilters := None;
                     orderKey := None; orderRule := None;
                     page := Some (JsNumber.of_Z 2); rows := Some (JsNumber.of_Z 0) |}
  = (JsNumber.of_Z 10, JsNumber.of_Z 10).
Proof. reflexivity. Qed.

Example pagination_page_zero :
  buildPagination {| filters := None; searchFilters := None; rangedFilters := None;
                     orderKey := None; orderRule := None;
                     page := Some (JsNumber.of_Z 0); rows := Some (JsNumber.of_Z 5) |}
  = (JsNumber.of_Z 10, JsNumber.of_Z 0).
Proof. reflexivity. Qed.

(** A [NaN] page is set but falsy. *)
Example pagination_page_NaN :
  buildPagination {| filters := None; searchFilters := None; rangedFilters := None;
                     orderKey := None; orderRule := None;
                     page := Some JsNumber.NaN; rows := Some (JsNumber.of_Z 5) |}
  = (JsNumber.of_Z 10, JsNumber.of_Z 0).
Proof. reflexivity. Qed.

(** [0 * Infinity] is [NaN]: the first page of an unbounded page size. *)
Example pagination_infinite_rows :
  buildPagination {| filters := None; searchFilters := None; rangedFilters := None;
                     orderKey := None; orderRule := None;
                     page := Some (JsNumber.of_Z 1);
                     rows := Some JsNumber.Infinity |}
  = (JsNumber.Infinity, JsNumber.NaN).
Proof. reflexivity. Qed.

(** The product is rounded: [94906267 * 94906267] is [9007199515875289],
    which is not a binary64 value. *)
Example pagination_rounds :
  buildPagination {| filters := None; searchFilters := None; rangedFilters := None;
                     orderKey := None; orderRule := None;
                     page := Some (JsNumber.of_Z 94906268);
                     rows := Some (JsNumber.of_Z 94906267) |}
  = (JsNumber.of_Z 94906267, JsNumber.of_Z 9007199515875288).
Proof. vm_compute. reflexivity. Qed.

(** C10. The empty request builds to
    [{where: {AND: []}, orderBy: {}, take: 10, skip: 0}]; for every request
    the builder returns a result whose [where.AND] is a list, and whose
    [orderBy] is [{}] when [orderKey] is absent. *)
Theorem C10_empty_request_and_shape (request : FilteringQuery)
    (spec : option QuerySpecification) :
  buildFilterQuery emptyQuery spec
  = Some {| where_ := VObj [("AND", VArr [])]; orderBy := VObj [];
            take := JsNumber.of_Z 10; skip := JsNumber.of_Z 0 |}
  /\ exists q conditions,
       buildFilterQuery request spec = Some q
       /\ where_ q = VObj [("AND", VArr conditions)]
       /\ match orderKey request with
          | None => orderBy q = VObj []
          | Some _ => True
          end.
Proof.
  split; [done|].
  eexists _, _. split; [apply buildFilterQuery_spec|]. simpl.
  split; [done|]. by destruct (orderKey request).
Qed.

(** ** The validator *)

(** C5. Without a specification, validation returns
    [{isValid: true, errors: [], warnings: []}] for every request. *)
Theorem C5_no_specification (Number_toString : number -> string)
    (Date_parse : string -> option Z)
    (request : FilteringQuery) :
  validateQuery Number_toString Date_parse request None
  = {| isValid := true; vr_errors := []; vr_warnings := [] |}.
Proof. reflexivity. Qed.

Example no_specification_ignores_content :
  validateQuery RefNumber.toString RefDate.parse
    {| filters := Some [("password", VStr "x")]; searchFilters := None;
       rangedFilters :=
         Some [{| key := "createdAt"; start := VStr "2023-12-31T00:00:00Z";
                  end_ := VStr "2023-01-01T00:00:00Z" |}];
       orderKey := None; orderRule := None;
       page := Some (JsNumber.of_Z (-3)); rows := Some (JsNumber.of_Z 0) |} None
  = {| isValid := true; vr_errors := []; vr_warnings := [] |}.
Proof. reflexivity. Qed.

(** *** Diagnostics accumulate *)

Lemma emit_nil (d : Diag) : emit [] [] d = d.
Proof. destruct d. unfold emit. simpl. by rewrite !app_nil_r. Qed.

Lemma emit_emit (es1 ws1 es2 ws2 : list string) (d : Diag) :
  emit es2 ws2 (emit es1 ws1 d) = emit (es1 ++ es2) (ws1 ++ ws2) d.
Proof. unfold emit. simpl. by rewrite !app_assoc. Qed.

Lemma pushError_emit (msg : string) (d : Diag) : pushError msg d = emit [msg] [] d.
Proof. unfold pushError, emit. by rewrite app_nil_r. Qed.

Lemma pushWarning_emit (msg : string) (d : Diag) : pushWarning msg d = emit [] [msg] d.
Proof. unfold pushWarning, emit. by rewrite app_nil_r. Qed.

Lemma fold_left_emit {A} (E W : A -> list string) (f : Diag -> A -> Diag)
    (l : list A) (d : Diag) :
  (forall d x, f d x = emit (E x) (W x) d) ->
  fold_left f l d = emit (flat_map E l) (flat_map W l) d.
Proof.
  intros Hf. revert d. induction l as [|x l IH]; intros d; cbn [fold_left flat_map].
  - by rewrite emit_nil.
  - by rewrite Hf, IH, emit_emit.
Qed.

Create Rewrite HintDb diag.
#[local] Hint Rewrite pushError_emit pushWarning_emit emit_emit emit_nil : diag.

(** *** The relation check *)

Lemma validateMultiLevelRelation_loop_spec (allowed : list string) (field : string)
    (parts : list string) (i n : nat) (d : Diag) :
  (i + n <= length parts)%nat ->
  validateMultiLevelRelation_loop allowed field parts i n d
  = match find (fun hop => negb (arrayIncludes allowed hop))
            (firstn n (skipn i parts)) with
    | Some hop => pushError (Msg.relationNotAllowed hop field) d
    | None => d
    end.
Proof.
  revert i. induction n as [|n IH]; intros i Hi; [done|].
  destruct (lookup_lt_is_Some_2 parts i) as [x Hx]; [lia|].
  cbn [validateMultiLevelRelation_loop]. rewrite Hx, (drop_S _ _ _ Hx).
  cbn [firstn find]. destruct (negb (arrayIncludes allowed x)); [done|].
  apply IH. lia.
Qed.

Lemma validateMultiLevelRelation_spec (field : string) (spec : QuerySpecification)
    (d : Diag) :
  validateMultiLevelRelation field spec d = emit (relationErrors spec field) [] d.
Proof.
  unfold validateMultiLevelRelation, relationErrors, relationHops, segments.
  destruct (allowedRelations spec) as [allowed|]; [|by rewrite emit_nil].
  rewrite validateMultiLevelRelation_loop_spec by (simpl; lia).
  rewrite removelast_firstn_len, <- Nat.sub_1_r. cbn [skipn].
  destruct (find _ _); by autorewrite with diag.
Qed.

Lemma relationErrors_plain (spec : QuerySpecification) (field : string) :
  JsString.includes dot field = false -> relationErrors spec field = [].
Proof.
  intros H. unfold relationErrors, relationHops, segments.
  rewrite JsStringFacts.split_plain by done. by destruct (allowedRelations spec).
Qed.

Lemma checkRelations_spec (field : string) (spec : QuerySpecification) (d : Diag) :
  checkRelations field spec d = emit (relationErrors spec field) [] d.
Proof.
  unfold checkRelations. destruct (JsString.includes dot field) eqn:E.
  - apply validateMultiLevelRelation_spec.
  - by rewrite relationErrors_plain, emit_nil.
Qed.

Lemma relationErrors_length (spec : QuerySpecification) (field : string) :
  (length (relationErrors spec field) <= 1)%nat.
Proof.
  unfold relationErrors. destruct (allowedRelations spec); [|simpl; lia].
  destruct (find _ _); simpl; lia.
Qed.

(** The first hop that is not allowed, given explicitly. *)
Lemma find_first_violation (allowed pre post : list string) (hop : string) :
  Forall (fun h => h ∈ allowed) pre -> hop ∉ allowed ->
  find (fun h => negb (arrayIncludes allowed h)) (pre ++ hop :: post) = Some hop.
Proof.
  intros Hpre Hhop. induction Hpre as [|h pre Hh _ IH]; simpl.
  - unfold arrayIncludes. by rewrite bool_decide_eq_false_2.
  - unfold arrayIncludes at 1. by rewrite bool_decide_eq_true_2.
Qed.

Lemma find_no_violation (allowed hops : list string) :
  Forall (fun h => h ∈ allowed) hops ->
  find (fun h => negb (arrayIncludes allowed h)) hops = None.
Proof.
  induction 1 as [|h hops Hh _ IH]; simpl; [done|].
  unfold arrayIncludes at 1. by rewrite bool_decide_eq_true_2.
Qed.

(** *** Every helper appends its diagnostics *)

Lemma validateFilters_step_spec (spec : QuerySpecification) (d : Diag)
    (entry : string * value) :
  validateFilters_step spec d entry
  = emit (filterErrors spec entry) (filterWarnings spec entry) d.
Proof.
  destruct entry as [field v].
  unfold validateFilters_step, filterErrors, filterWarnings.
  destruct (isNullish v); [by rewrite emit_nil|].
  rewrite checkRelations_spec.
  destruct (notAllowed spec field), (isForbidden spec field); simpl;
    by autorewrite with diag.
Qed.

Lemma validateSearchFilters_step_spec (spec : QuerySpecification) (d : Diag)
    (entry : string * value) :
  validateSearchFilters_step spec d entry
  = emit (searchErrors spec entry) (searchWarnings spec entry) d.
Proof.
  destruct entry as [field v].
  unfold validateSearchFilters_step, searchErrors, searchWarnings.
  destruct (isNullish v); [by rewrite emit_nil|].
  rewrite checkRelations_spec.
  destruct (notAllowed spec field); simpl; by autorewrite with diag.
Qed.

Lemma validateRangedFilters_step_spec (Date_parse : string -> option Z)
    (spec : QuerySpecification) (d : Diag) (range : RangedFilter) :
  validateRangedFilters_step Date_parse spec d range
  = emit (rangeErrors Date_parse spec range) (rangeWarnings spec range) d.
Proof.
  unfold validateRangedFilters_step, rangeErrors, rangeWarnings, dateErrors.
  rewrite checkRelations_spec.
  destruct (notAllowed spec (key range)),
    (isValidDate (start range) && isValidDate (end_ range)),
    (dateAfter _ _); simpl; autorewrite with diag; simpl;
    by rewrite ?app_nil_r.
Qed.

Lemma validateOrderKey_spec (k : string) (spec : QuerySpecification) (d : Diag) :
  validateOrderKey k spec d
  = emit (relationErrors spec k)
         (if notAllowed spec k then [Msg.orderFieldNotAllowed k] else []) d.
Proof.
  unfold validateOrderKey. rewrite checkRelations_spec.
  destruct (notAllowed spec k); by autorewrite with diag.
Qed.

Lemma validatePagination_spec (Number_toString : number -> string) (query : FilteringQuery) (spec : QuerySpecification)
    (d : Diag) :
  validatePagination Number_toString query spec d = emit (paginationErrors Number_toString spec query) [] d.
Proof.
  unfold paginationErrors, validatePagination.
  destruct (page query) as [p|]; [destruct (JsNumber.ltb p _)|];
    (destruct (rows query) as [r|];
     [destruct (JsNumber.ltb r _);
      [|destruct (maxPageSize spec) as [m|];
        [destruct (truthyNumber (Some m) && JsNumber.ltb m r)|]]|]);
    autorewrite with diag; simpl; by rewrite ?emit_nil.
Qed.

(** The validator with a specification, in closed form. *)
Lemma validateQuery_spec (Number_toString : number -> string)
    (Date_parse : string -> option Z) (query : FilteringQuery)
    (spec : QuerySpecification) :
  validateQuery Number_toString Date_parse query (Some spec)
  = {| isValid := (length (allErrors Number_toString Date_parse spec query) =? 0)%nat;
       vr_errors := allErrors Number_toString Date_parse spec query;
       vr_warnings := allWarnings spec query |}.
Proof.
  unfold validateQuery, validateFilters, validateSearchFilters, validateRangedFilters.
  set (d0 := {| errors := []; warnings := [] |}).
  assert (forall d,
    (match filters query with
     | Some fs => fold_left (validateFilters_step spec) fs d
     | None => d end)
    = emit (flat_map (filterErrors spec) (default [] (filters query)))
           (flat_map (filterWarnings spec) (default [] (filters query))) d) as H1.
  { intros d. destruct (filters query); simpl; [|by rewrite emit_nil].
    apply fold_left_emit, validateFilters_step_spec. }
  assert (forall d,
    (match searchFilters query with
     | Some sfs => fold_left (validateSearchFilters_step spec) sfs d
     | None => d end)
    = emit (flat_map (searchErrors spec) (default [] (searchFilters query)))
           (flat_map (searchWarnings spec) (default [] (searchFilters query))) d) as H2.
  { intros d. destruct (searchFilters query); simpl; [|by rewrite emit_nil].
    apply fold_left_emit, validateSearchFilters_step_spec. }
  assert (forall d,
    (match rangedFilters query with
     | Some rfs => fold_left (validateRangedFilters_step Date_parse spec) rfs d
     | None => d end)
    = emit (flat_map (rangeErrors Date_parse spec) (default [] (rangedFilters query)))
           (flat_map (rangeWarnings spec) (default [] (rangedFilters query))) d) as H3.
  { intros d. destruct (rangedFilters query); simpl; [|by rewrite emit_nil].
    apply fold_left_emit, validateRangedFilters_step_spec. }
  assert (forall d,
    (match orderKey query with
     | Some k => if truthyString (Some k) then validateOrderKey k spec d else d
     | None => d end)
    = emit (orderErrors spec (orderKey query))
           (orderWarnings spec (orderKey query)) d) as H4.
  { intros d. unfold orderErrors, orderWarnings.
    destruct (orderKey query) as [k|]; [|by rewrite emit_nil].
    destruct (truthyString (Some k)); [|by rewrite emit_nil].
    by rewrite validateOrderKey_spec. }
  rewrite H1, H2, H3, H4, validatePagination_spec, !emit_emit.
  unfold allErrors, allWarnings, emit, d0. simpl.
  by rewrite ?app_nil_r.
Qed.

(** *** Telling the messages apart *)

Lemma string_app_length (s t : string) :
  String.length (s +:+ t) = (String.length s + String.length t)%nat.
Proof.
  induction s as [|a s IH]; [done|].
  change (S (String.length (s +:+ t)) = S (String.length s + String.length t)).
  by rewrite IH.
Qed.

Lemma string_app_inj_r (s1 s2 t : string) : s1 +:+ t = s2 +:+ t -> s1 = s2.
Proof.
  revert s2. induction s1 as [|a s1 IH]; intros [|b s2] H; try done.
  - apply (f_equal String.length) in H.
    change (String b s2 +:+ t) with (String b (s2 +:+ t)) in H.
    change (EmptyString +:+ t) with t in H.
    simpl in H. rewrite string_app_length in H. lia.
  - apply (f_equal String.length) in H.
    change (String a s1 +:+ t) with (String a (s1 +:+ t)) in H.
    change (EmptyString +:+ t) with t in H.
    simpl in H. rewrite string_app_length in H. lia.
  - change (String a (s1 +:+ t) = String b (s2 +:+ t)) in H.
    injection H as -> H. f_equal. by apply IH.
Qed.

Lemma fieldForbidden_inj (f g : string) :
  Msg.fieldForbidden f = Msg.fieldForbidden g -> f = g.
Proof.
  unfold Msg.fieldForbidden. intros H.
  apply (inj (String.app "Field '")) in H. by apply string_app_inj_r in H.
Qed.

Lemma fieldNotAllowed_inj (f g : string) :
  Msg.fieldNotAllowed f = Msg.fieldNotAllowed g -> f = g.
Proof.
  unfold Msg.fieldNotAllowed. intros H.
  apply (inj (String.app "Field '")) in H. by apply string_app_inj_r in H.
Qed.

Lemma relationErrors_shape (spec : QuerySpecification) (path msg : string) :
  msg ∈ relationErrors spec path ->
  exists hop, hop ∈ relationHops path /\ msg = Msg.relationNotAllowed hop path.
Proof.
  unfold relationErrors. destruct (allowedRelations spec) as [allowed|].
  - destruct (find _ _) as [hop|] eqn:E.
    + intros ->%list_elem_of_singleton. exists hop. split; [|done].
      apply find_some in E as [E _]. by apply list_elem_of_In.
    + by intros ?%elem_of_nil.
  - by intros ?%elem_of_nil.
Qed.

Lemma relationErrors_firstChar (spec : QuerySpecification) (path msg : string) :
  msg ∈ relationErrors spec path -> firstChar msg = Some "R"%char.
Proof. by intros (hop & _ & ->)%relationErrors_shape. Qed.

Lemma dateErrors_firstChar (Date_parse : string -> option Z) (r : RangedFilter)
    (msg : string) :
  msg ∈ dateErrors Date_parse r -> firstChar msg = Some "R"%char.
Proof.
  unfold dateErrors. destruct (_ && _).
  - by intros ->%list_elem_of_singleton.
  - by intros ?%elem_of_nil.
Qed.

Lemma paginationErrors_firstChar (Number_toString : number -> string) (spec : QuerySpecification) (q : FilteringQuery)
    (msg : string) :
  msg ∈ paginationErrors Number_toString spec q ->
  firstChar msg = Some "R"%char \/ firstChar msg = Some "P"%char.
Proof.
  unfold paginationErrors, validatePagination.
  destruct (page q) as [p|]; [destruct (JsNumber.ltb p _)|];
    (destruct (rows q) as [r|];
     [destruct (JsNumber.ltb r _);
      [|destruct (maxPageSize spec) as [m|];
        [destruct (truthyNumber (Some m) && JsNumber.ltb m r)|]]|]);
    simpl; rewrite ?elem_of_cons, ?elem_of_nil; intuition (subst; auto).
Qed.

Lemma elem_of_flat_map {A B} (f : A -> list B) (l : list A) (y : B) :
  y ∈ flat_map f l <-> exists x, x ∈ l /\ y ∈ f x.
Proof.
  rewrite list_elem_of_In, in_flat_map. split; intros (x & Hx & Hy); exists x.
  - by rewrite !list_elem_of_In.
  - by rewrite <- !list_elem_of_In.
Qed.

(** *** Forbidden fields *)

Lemma searchErrors_never_forbidden (spec : QuerySpecification) (sfs : Record_)
    (msg f : string) :
  msg ∈ flat_map (searchErrors spec) sfs -> msg <> Msg.fieldForbidden f.
Proof.
  intros ([field v] & _ & Hmsg)%elem_of_flat_map ->.
  unfold searchErrors in Hmsg. destruct (isNullish v).
  - by apply elem_of_nil in Hmsg.
  - by apply relationErrors_firstChar in Hmsg.
Qed.

(** C6. With [allowedFields] configured, a field path that is absent from
    [allowedFields] and present in [forbiddenFields] yields, when used in
    [filters], the error [Field '<path>' is forbidden] and not the
    allowed-list warning, and the result is invalid; used in [searchFilters]
    and not in [filters], it yields the warning
    [Search field '<path>' is not in allowed fields list] and no forbidden
    error.  The search filters never produce a forbidden-field error. *)
Theorem C6_forbidden_fields (Number_toString : number -> string)
    (Date_parse : string -> option Z)
    (request : FilteringQuery) (spec : QuerySpecification)
    (allowed forbidden : list string) (field : string) (v : value) :
  allowedFields spec = Some allowed -> field ∉ allowed ->
  forbiddenFields spec = Some forbidden -> field ∈ forbidden ->
  isNullish v = false ->
  let result := validateQuery Number_toString Date_parse request (Some spec) in
  ((field, v) ∈ default [] (filters request) ->
     Msg.fieldForbidden field ∈ vr_errors result
     /\ (Msg.fieldNotAllowed field ∉ vr_warnings result)
     /\ isValid result = false)
  /\ ((field, v) ∈ default [] (searchFilters request) ->
      (forall w, (field, w) ∈ default [] (filters request) -> isNullish w = true) ->
      Msg.searchFieldNotAllowed field ∈ vr_warnings result
      /\ (Msg.fieldForbidden field ∉ vr_errors result))
  /\ (forall sfs msg f,
        msg ∈ flat_map (searchErrors spec) sfs -> msg <> Msg.fieldForbidden f).
Proof.
  intros Hallowed Hnot Hforbidden Hin Hv result.
  assert (notAllowed spec field = true) as HnotAllowed.
  { unfold notAllowed, arrayIncludes. rewrite Hallowed.
    by rewrite bool_decide_eq_false_2. }
  assert (isForbidden spec field = true) as HisForbidden.
  { unfold isForbidden, arrayIncludes. rewrite Hforbidden.
    by rewrite bool_decide_eq_true_2. }
  subst result. rewrite validateQuery_spec. cbn [vr_errors vr_warnings isValid].
  split_and!.
  - intros Hfs.
    assert (Msg.fieldForbidden field ∈ allErrors Number_toString Date_parse spec request) as He.
    { unfold allErrors. apply elem_of_app. left.
      apply elem_of_flat_map. exists (field, v). split; [done|].
      unfold filterErrors. rewrite Hv, HnotAllowed, HisForbidden. simpl.
      apply elem_of_cons. by left. }
    split_and!; [done| |].
    + unfold allWarnings. rewrite !elem_of_app, !elem_of_flat_map.
      intros [([f' v'] & _ & H)|[([f' v'] & _ & H)|[(r & _ & H)|H]]].
      * unfold filterWarnings in H. destruct (isNullish v'); [by apply elem_of_nil in H|].
        destruct (notAllowed spec f' && negb (isForbidden spec f')) eqn:E;
          [|by apply elem_of_nil in H].
        apply list_elem_of_singleton, fieldNotAllowed_inj in H. subst f'.
        rewrite HisForbidden, andb_false_r in E. done.
      * unfold searchWarnings in H. destruct (isNullish v'); [by apply elem_of_nil in H|].
        destruct (notAllowed spec f'); [|by apply elem_of_nil in H].
        apply list_elem_of_singleton in H. by apply (f_equal firstChar) in H.
      * unfold rangeWarnings in H.
        destruct (notAllowed spec (key r)); [|by apply elem_of_nil in H].
        apply list_elem_of_singleton in H. by apply (f_equal firstChar) in H.
      * unfold orderWarnings in H. destruct (orderKey request) as [k|];
          [|by apply elem_of_nil in H].
        destruct (_ && _); [|by apply elem_of_nil in H].
        apply list_elem_of_singleton in H. by apply (f_equal firstChar) in H.
    + destruct (allErrors Number_toString Date_parse spec request); [by apply elem_of_nil in He|done].
  - intros Hsfs Hunused. split.
    + unfold allWarnings. apply elem_of_app. right. apply elem_of_app. left.
      apply elem_of_flat_map. exists (field, v). split; [done|].
      unfold searchWarnings. rewrite Hv, HnotAllowed. apply elem_of_cons. by left.
    + unfold allErrors. rewrite !elem_of_app.
      intros [H|[H|[H|[H|H]]]].
      * apply elem_of_flat_map in H as ([f' v'] & Hf' & H).
        unfold filterErrors in H. destruct (isNullish v') eqn:Hv';
          [by apply elem_of_nil in H|].
        apply elem_of_app in H as [H|H].
        -- destruct (_ && _); [|by apply elem_of_nil in H].
           apply list_elem_of_singleton, fieldForbidden_inj in H. subst f'.
           apply Hunused in Hf'. congruence.
        -- by apply relationErrors_firstChar in H.
      * by apply searchErrors_never_forbidden with (f := field) in H.
      * apply elem_of_flat_map in H as (r & _ & H). unfold rangeErrors in H.
        apply elem_of_app in H as [H|H].
        -- by apply relationErrors_firstChar in H.
        -- by apply dateErrors_firstChar in H.
      * unfold orderErrors in H. destruct (orderKey request) as [k|];
          [|by apply elem_of_nil in H].
        destruct (truthyString (Some k)); [|by apply elem_of_nil in H].
        by apply relationErrors_firstChar in H.
      * by apply paginationErrors_firstChar in H as [H|H].
  - apply searchErrors_never_forbidden.
Qed.

Lemma C6_forbidden_fields_witness :
  (Msg.fieldForbidden "password"
     ∈ vr_errors (validateQuery RefNumber.toString RefDate.parse requestFilteringPassword (Some sampleSpec))
   /\ (Msg.fieldNotAllowed "password"
        ∉ vr_warnings (validateQuery RefNumber.toString RefDate.parse requestFilteringPassword
                         (Some sampleSpec)))
   /\ isValid (validateQuery RefNumber.toString RefDate.parse requestFilteringPassword (Some sampleSpec))
      = false)
  /\ (Msg.searchFieldNotAllowed "password"
        ∈ vr_warnings (validateQuery RefNumber.toString RefDate.parse requestSearchingPassword
                         (Some sampleSpec))
      /\ (Msg.fieldForbidden "password"
           ∉ vr_errors (validateQuery RefNumber.toString RefDate.parse requestSearchingPassword
                          (Some sampleSpec)))).
Proof.
  assert ("password" ∉ ["name"; "email"]) as Hnot.
  { intros H. apply elem_of_cons in H as [H|H]; [discriminate|].
    apply list_elem_of_singleton in H. discriminate. }
  assert ("password" ∈ ["password"; "secret"]) as Hin.
  { apply elem_of_cons. by left. }
  split.
  - apply (C6_forbidden_fields RefNumber.toString RefDate.parse requestFilteringPassword sampleSpec
             ["name"; "email"] ["password"; "secret"] "password" (VStr "hunter2")
             eq_refl Hnot eq_refl Hin eq_refl).
    apply list_elem_of_singleton. reflexivity.
  - apply (C6_forbidden_fields RefNumber.toString RefDate.parse requestSearchingPassword sampleSpec
             ["name"; "email"] ["password"; "secret"] "password" (VStr "hunter")
             eq_refl Hnot eq_refl Hin eq_refl).
    + apply list_elem_of_singleton. reflexivity.
    + intros w Hw. apply list_elem_of_singleton in Hw. discriminate.
Defined.

Example forbidden_filter_report :
  validateQuery RefNumber.toString RefDate.parse requestFilteringPassword (Some sampleSpec)
  = {| isValid := false;
       vr_errors := ["Field 'password' is forbidden"];
       vr_warnings := [] |}.
Proof. reflexivity. Qed.

Example forbidden_search_report :
  validateQuery RefNumber.toString RefDate.parse requestSearchingPassword (Some sampleSpec)
  = {| isValid := true;
       vr_errors := [];
       vr_warnings := ["Search field 'password' is not in allowed fields list"] |}.
Proof. reflexivity. Qed.

(** *** Relation paths *)

(** C7. With [allowedRelations] configured, the relation check of a path
    walks its non-terminal segments from the left; at the first one that is
    not an allowed relation it reports exactly the one error
    [Relation '<segment>' in field '<path>' is not allowed] and nothing for
    the segments after it; when every non-terminal segment is allowed it
    reports nothing.  The paths of [filters], [searchFilters], the ranged
    filters and [orderKey] all go through this check. *)
Theorem C7_first_relation_violation (Number_toString : number -> string)
    (Date_parse : string -> option Z)
    (request : FilteringQuery) (spec : QuerySpecification)
    (allowed : list string) (path : string) (d : Diag) :
  allowedRelations spec = Some allowed ->
  (forall pre hop post,
     relationHops path = pre ++ hop :: post ->
     Forall (fun h => h ∈ allowed) pre -> hop ∉ allowed ->
     validateMultiLevelRelation path spec d
     = pushError (Msg.relationNotAllowed hop path) d
     /\ relationErrors spec path = [Msg.relationNotAllowed hop path])
  /\ (Forall (fun h => h ∈ allowed) (relationHops path) ->
      validateMultiLevelRelation path spec d = d
      /\ relationErrors spec path = [])
  /\ (length (relationErrors spec path) <= 1)%nat
  /\ (forall v, isNullish v = false ->
        exists forbiddenError,
          filterErrors spec (path, v) = forbiddenError ++ relationErrors spec path)
  /\ (forall v, isNullish v = false ->
        searchErrors spec (path, v) = relationErrors spec path)
  /\ (forall startV endV,
        let range := {| key := path; start := startV; end_ := endV |} in
        rangeErrors Date_parse spec range
        = relationErrors spec path ++ dateErrors Date_parse range)
  /\ (path <> EmptyString -> orderErrors spec (Some path) = relationErrors spec path)
  /\ vr_errors (validateQuery Number_toString Date_parse request (Some spec))
     = allErrors Number_toString Date_parse spec request.
Proof.
  intros Hallowed. split_and!.
  - intros pre hop post Hhops Hpre Hhop.
    assert (relationErrors spec path = [Msg.relationNotAllowed hop path]) as Hr.
    { unfold relationErrors. rewrite Hallowed, Hhops.
      by rewrite find_first_violation. }
    split; [|done].
    by rewrite validateMultiLevelRelation_spec, Hr, pushError_emit.
  - intros Hall.
    assert (relationErrors spec path = []) as Hr.
    { unfold relationErrors. rewrite Hallowed. by rewrite find_no_violation. }
    split; [|done].
    by rewrite validateMultiLevelRelation_spec, Hr, emit_nil.
  - apply relationErrors_length.
  - intros v Hv. unfold filterErrors. rewrite Hv. by eexists.
  - intros v Hv. unfold searchErrors. by rewrite Hv.
  - done.
  - intros Hne. unfold orderErrors. by destruct path.
  - by rewrite validateQuery_spec.
Qed.

Lemma C7_first_relation_violation_witness :
  validateMultiLevelRelation "a.b.c" sampleSpec {| errors := []; warnings := [] |}
  = {| errors := ["Relation 'b' in field 'a.b.c' is not allowed"]; warnings := [] |}
  /\ relationErrors sampleSpec "a.b.c" = ["Relation 'b' in field 'a.b.c' is not allowed"].
Proof.
  assert (Forall (fun h => h ∈ ["a"]) ["a"]) as Hpre.
  { constructor; [by apply list_elem_of_singleton|constructor]. }
  assert ("b" ∉ ["a"]) as Hb.
  { intros H. apply list_elem_of_singleton in H. discriminate. }
  exact (proj1 (C7_first_relation_violation RefNumber.toString RefDate.parse emptyQuery sampleSpec
                  ["a"] "a.b.c" {| errors := []; warnings := [] |} eq_refl)
           ["a"] "b" [] eq_refl Hpre Hb).
Defined.

(** ** Regular expressions: [test] decides the language *)

Module RegExpFacts.
Import RegExp.

Lemma app_cons (a : ascii) (s t : string) : String a s +:+ t = String a (s +:+ t).
Proof. reflexivity. Qed.

Lemma app_empty_inv (s t : string) :
  s +:+ t = EmptyString -> s = EmptyString /\ t = EmptyString.
Proof. by destruct s. Qed.

Lemma app_cons_inv (s t u : string) (a : ascii) :
  s +:+ t = String a u ->
  (s = EmptyString /\ t = String a u)
  \/ exists s', s = String a s' /\ u = s' +:+ t.
Proof.
  destruct s as [|b s]; [by left|]. rewrite app_cons. intros [= -> <-].
  right. by eexists.
Qed.

Lemma nullable_matches (r : regex) : nullable r = true -> matches r EmptyString.
Proof.
  induction r; simpl; intros H; try done.
  - constructor.
  - apply andb_prop in H as [H1 H2].
    change EmptyString with (EmptyString +:+ EmptyString). constructor; auto.
  - apply orb_prop in H as [H|H]; [apply m_alt_l|apply m_alt_r]; auto.
  - constructor.
Qed.

Lemma matches_nullable (r : regex) (s : string) :
  matches r s -> s = EmptyString -> nullable r = true.
Proof.
  induction 1 as [| | |r1 r2 s1 s2 _ IH1 _ IH2| | | |]; intros Hs;
    simpl; try done.
  - apply app_empty_inv in Hs as [-> ->]. by rewrite IH1, IH2.
  - by rewrite IHmatches.
  - rewrite IHmatches by done. apply orb_true_r.
Qed.

Lemma deriv_sound (a : ascii) (r : regex) (s : string) :
  matches (deriv a r) s -> matches r (String a s).
Proof.
  revert s. induction r as [| | |c|r1 IH1 r2 IH2|r1 IH1 r2 IH2|r IH];
    intros s H; simpl in H.
  - inversion H.
  - inversion H.
  - destruct (isDigit a) eqn:E; inversion H; subst. by constructor.
  - destruct (Ascii.eqb_spec a c) as [->|]; inversion H; subst. constructor.
  - destruct (nullable r1) eqn:E.
    + inversion H as [| | | |? ? ? H'|? ? ? H'| |]; subst.
      * inversion H' as [| | |? ? s1 s2 Ha Hb| | | |]; subst.
        rewrite <- app_cons. constructor; auto.
      * change (String a s) with (EmptyString +:+ String a s).
        constructor; [by apply nullable_matches|auto].
    + inversion H as [| | |? ? s1 s2 Ha Hb| | | |]; subst.
      rewrite <- app_cons. constructor; auto.
  - inversion H; subst; [apply m_alt_l|apply m_alt_r]; auto.
  - inversion H as [| | |? ? s1 s2 Ha Hb| | | |]; subst.
    rewrite <- app_cons. constructor; auto.
Qed.

Lemma deriv_complete (a : ascii) (r : regex) (w : string) :
  matches r w -> forall s, w = String a s -> matches (deriv a r) s.
Proof.
  induction 1 as [|b Hb|c|r1 r2 s1 s2 H1 IH1 H2 IH2|r1 r2 s0 H0 IH
                 |r1 r2 s0 H0 IH| |r s1 s2 H1 IH1 H2 IH2];
    intros s Hw; simpl; try done.
  - injection Hw as -> <-. rewrite Hb. constructor.
  - injection Hw as -> <-. rewrite Ascii.eqb_refl. constructor.
  - apply app_cons_inv in Hw as [[-> ->]|(s1' & -> & ->)].
    + rewrite (matches_nullable _ _ H1 eq_refl). apply m_alt_r. by apply IH2.
    + destruct (nullable r1).
      * apply m_alt_l. constructor; [by apply IH1|done].
      * constructor; [by apply IH1|done].
  - apply m_alt_l. by apply IH.
  - apply m_alt_r. by apply IH.
  - apply app_cons_inv in Hw as [[-> ->]|(s1' & -> & ->)].
    + by apply IH2.
    + constructor; [by apply IH1|done].
Qed.

Theorem test_matches (r : regex) (s : string) : test r s = true <-> matches r s.
Proof.
  revert r. induction s as [|a s IH]; intros r; simpl.
  - split; [apply nullable_matches|]. intros H. by eapply matches_nullable.
  - rewrite IH. split; [apply deriv_sound|].
    intros H. by eapply deriv_complete.
Qed.

(** *** The shapes of the pieces of [dateRegex] *)

Lemma matches_seq_inv (r1 r2 : regex) (s : string) :
  matches (Seq r1 r2) s ->
  exists s1 s2, s = s1 +:+ s2 /\ matches r1 s1 /\ matches r2 s2.
Proof. inversion 1; subst. by eexists _, _. Qed.

Lemma matches_chr_inv (c : ascii) (s : string) :
  matches (Chr c) s -> s = String c EmptyString.
Proof. by inversion 1. Qed.

Lemma matches_eps_inv (s : string) : matches Eps s -> s = EmptyString.
Proof. by inversion 1. Qed.

Lemma matches_digit_inv (s : string) :
  matches Digit s -> exists a, s = String a EmptyString /\ isDigit a = true.
Proof. inversion 1; subst. by eexists. Qed.

Lemma matches_repeat_digit (n : nat) (s : string) :
  matches (repeat n Digit) s <-> digits n s.
Proof.
  revert s. induction n as [|n IH]; intros s; simpl.
  - split.
    + by intros ->%matches_eps_inv.
    + intros [Hl _]. destruct s; [constructor|done].
  - split.
    + intros (s1 & s2 & -> & (a & -> & Ha)%matches_digit_inv & [Hl Hd]%IH)%matches_seq_inv.
      split; [change (S (String.length s2) = S n); by rewrite Hl|].
      change (isDigit a = true /\ allDigits s2). by split.
    + intros [Hl Hd]. destruct s as [|a s]; [done|]. destruct Hd as [Ha Hd].
      change (String a s) with (String a EmptyString +:+ s).
      constructor; [by constructor|]. apply IH. split; [|done].
      simpl in Hl. congruence.
Qed.

Lemma matches_star_digit (s : string) : matches (Star Digit) s <-> allDigits s.
Proof.
  split.
  - intros H. remember (Star Digit) as r eqn:Hr.
    induction H as [| | | | | | |r' s1 s2 H1 _ H2 IH2]; try done.
    injection Hr as ->. apply matches_digit_inv in H1 as (a & -> & Ha).
    split; [done|]. by apply IH2.
  - induction s as [|a s IH]; [constructor|]. intros [Ha Hd].
    change (String a s) with (String a EmptyString +:+ s).
    constructor; [by constructor|auto].
Qed.

End RegExpFacts.

(** [dateRegex] accepts exactly the pattern [YYYY-MM-DDTHH:MM:SS[.fraction]Z]. *)
Lemma dateRegex_pattern (s : string) :
  RegExp.test dateRegex s = true <-> isoUtcPattern s.
Proof.
  rewrite RegExpFacts.test_matches. unfold dateRegex, isoUtcPattern. cbv zeta.
  cbn [RegExp.sequence]. split.
  - intros H.
    repeat (apply RegExpFacts.matches_seq_inv in H as (? & ? & -> & ? & H)).
    apply RegExpFacts.matches_eps_inv in H as ->.
    repeat match goal with
    | H : RegExp.matches (RegExp.Chr _) _ |- _ =>
        apply RegExpFacts.matches_chr_inv in H as ->
    | H : RegExp.matches (RegExp.repeat _ RegExp.Digit) _ |- _ =>
        apply RegExpFacts.matches_repeat_digit in H
    end.
    match goal with
    | H : RegExp.matches (RegExp.optional _) ?f |- _ =>
        rename H into Hfrac; rename f into fraction
    end.
    eexists _, _, _, _, _, _, fraction. split; [reflexivity|].
    split_and!; try done.
    inversion Hfrac as [| | | |? ? ? H'|? ? ? H'| |]; subst.
    + right. apply RegExpFacts.matches_seq_inv in H' as (? & ? & -> & Hc & Hp).
      apply RegExpFacts.matches_chr_inv in Hc as ->.
      apply RegExpFacts.matches_seq_inv in Hp as (? & ? & -> & Hd & Hs).
      apply RegExpFacts.matches_digit_inv in Hd as (a & -> & Ha).
      apply RegExpFacts.matches_star_digit in Hs.
      eexists. split; [reflexivity|]. split; [done|]. by split.
    + left. by apply RegExpFacts.matches_eps_inv in H'.
  - intros (YYYY & MM & DD & hh & mm & ss & fraction & -> & HY & HM & HD & Hh
            & Hm & Hs & Hf).
    repeat (constructor;
            [first [by apply RegExpFacts.matches_repeat_digit | by constructor | idtac]|]).
    + destruct Hf as [->|(f & -> & Hne & Hd)].
      * apply RegExp.m_alt_r. constructor.
      * apply RegExp.m_alt_l. constructor; [constructor|].
        destruct f as [|a f]; [done|]. destruct Hd as [Ha Hd].
        change (String a f) with (String a EmptyString +:+ f).
        constructor; [by constructor|]. by apply RegExpFacts.matches_star_digit.
    + change (String "Z" EmptyString)
        with (String "Z" EmptyString +:+ EmptyString).
      constructor; constructor.
Qed.

(** ** Date ranges *)

Lemma isValidDate_pattern (v : value) :
  isValidDate v = true <-> exists s, v = VStr s /\ isoUtcPattern s.
Proof.
  split.
  - destruct v; simpl; try done. intros H%dateRegex_pattern. by eexists.
  - intros (s & -> & H). by apply dateRegex_pattern.
Qed.

Lemma dateAfter_spec (a b : option Z) :
  dateAfter a b = true <-> exists t1 t2, a = Some t1 /\ b = Some t2 /\ t2 < t1.
Proof.
  unfold dateAfter. split.
  - destruct a as [t1|], b as [t2|]; try done.
    intros H%Z.ltb_lt. by eexists _, _.
  - intros (t1 & t2 & -> & -> & H). by apply Z.ltb_lt.
Qed.

Lemma dateCheck_spec (Date_parse : string -> option Z) (range : RangedFilter) :
  isValidDate (start range) && isValidDate (end_ range)
  && dateAfter (Date_parse (String_ (start range)))
               (Date_parse (String_ (end_ range))) = true
  <-> startAfterEnd Date_parse range.
Proof.
  rewrite !andb_true_iff, !isValidDate_pattern, dateAfter_spec.
  unfold startAfterEnd. split.
  - intros [[(s & Hs & Ps) (e & He & Pe)] (t1 & t2 & H1 & H2 & Hlt)].
    rewrite Hs, He in *. simpl in *. by exists s, e, t1, t2.
  - intros (s & e & t1 & t2 & Hs & He & Ps & Pe & H1 & H2 & Hlt).
    rewrite Hs, He. simpl. split; [split; by eexists|]. by exists t1, t2.
Qed.

(** C8. Processing one ranged filter with a specification present appends to
    the errors the relation error of its key, if any, and then the
    start-after-end error; that error is emitted if and only if both bounds
    are strings in the pattern [YYYY-MM-DDTHH:MM:SS[.fraction]Z] and the
    parsed start is strictly after the parsed end.  Bounds outside the
    pattern give neither an error nor a warning from this check. *)
Theorem C8_date_range_order (Number_toString : number -> string)
    (Date_parse : string -> option Z)
    (request : FilteringQuery) (spec : QuerySpecification)
    (range : RangedFilter) (d : Diag) :
  let d' := validateRangedFilters_step Date_parse spec d range in
  errors d' = errors d ++ relationErrors spec (key range) ++ dateErrors Date_parse range
  /\ warnings d'
     = warnings d ++ (if notAllowed spec (key range)
                      then [Msg.rangeFieldNotAllowed (key range)] else [])
  /\ (dateErrors Date_parse range <> [] <-> startAfterEnd Date_parse range)
  /\ (startAfterEnd Date_parse range ->
      exists s e, start range = VStr s /\ end_ range = VStr e
        /\ dateErrors Date_parse range = [Msg.startAfterEnd s e])
  /\ (~ startAfterEnd Date_parse range -> dateErrors Date_parse range = [])
  /\ vr_errors (validateQuery Number_toString Date_parse request (Some spec))
     = flat_map (filterErrors spec) (default [] (filters request))
       ++ flat_map (searchErrors spec) (default [] (searchFilters request))
       ++ flat_map (fun r => relationErrors spec (key r) ++ dateErrors Date_parse r)
            (default [] (rangedFilters request))
       ++ orderErrors spec (orderKey request)
       ++ paginationErrors Number_toString spec request.
Proof.
  cbv zeta. rewrite validateRangedFilters_step_spec, validateQuery_spec.
  assert (startAfterEnd Date_parse range ->
          exists s e, start range = VStr s /\ end_ range = VStr e
            /\ dateErrors Date_parse range = [Msg.startAfterEnd s e]) as Hyes.
  { intros H. pose proof H as (s & e & _ & _ & Hs & He & _).
    exists s, e. split_and!; try done.
    apply dateCheck_spec in H. unfold dateErrors. rewrite H, Hs, He. done. }
  assert (~ startAfterEnd Date_parse range -> dateErrors Date_parse range = [])
    as Hno.
  { intros H. unfold dateErrors.
    destruct (_ && _) eqn:E; [|done]. by apply dateCheck_spec in E. }
  repeat apply conj; try done.
  - intros Hne. destruct (dateErrors Date_parse range) eqn:E; [done|].
    unfold dateErrors in E. destruct (_ && _) eqn:Hc; [|done].
    by apply dateCheck_spec in Hc.
  - intros (s & e & _ & _ & ->)%Hyes. done.
Qed.

Lemma C8_date_range_order_witness :
  startAfterEnd RefDate.parse invertedDateRange
  /\ dateErrors RefDate.parse invertedDateRange
     = ["Range start date '2023-12-31T00:00:00Z' is after end date '2023-01-01T00:00:00Z'"]
  /\ ~ startAfterEnd RefDate.parse invertedNumberRange
  /\ dateErrors RefDate.parse invertedNumberRange = [].
Proof.
  assert (startAfterEnd RefDate.parse invertedDateRange) as Hdate.
  { apply dateCheck_spec. reflexivity. }
  assert (~ startAfterEnd RefDate.parse invertedNumberRange) as Hnum.
  { intros (s & e & _ & _ & Hs & _). discriminate. }
  split; [exact Hdate|]. split; [|split; [exact Hnum|]].
  - destruct (proj1 (proj2 (proj2 (proj2
      (C8_date_range_order RefNumber.toString RefDate.parse emptyQuery sampleSpec invertedDateRange
         {| errors := []; warnings := [] |})))) Hdate)
      as (s & e & [= <-] & [= <-] & ->).
    reflexivity.
  - exact (proj1 (proj2 (proj2 (proj2 (proj2
      (C8_date_range_order RefNumber.toString RefDate.parse emptyQuery sampleSpec invertedNumberRange
         {| errors := []; warnings := [] |}))))) Hnum).
Defined.

Example inverted_dates_report :
  validateQuery RefNumber.toString RefDate.parse
    {| filters := None; searchFilters := None;
       rangedFilters := Some [invertedDateRange; invertedNumberRange];
       orderKey := None; orderRule := None; page := None; rows := None |}
    (Some sampleSpec)
  = {| isValid := false;
       vr_errors :=
         ["Range start date '2023-12-31T00:00:00Z' is after end date '2023-01-01T00:00:00Z'"];
       vr_warnings :=
         ["Range field 'createdAt' is not in allowed fields list";
          "Range field 'createdAt' is not in allowed fields list"] |}.
Proof. vm_compute. reflexivity. Qed.

(** * Further properties of the builder *)

Lemma flat_map_withoutNulls {B} (f : string * value -> list B) (entries : Record_) :
  (forall e, isNullish e.2 = true -> f e = []) ->
  flat_map f (withoutNulls entries) = flat_map f entries.
Proof.
  intros Hf. unfold withoutNulls.
  induction entries as [|e entries IH]; [done|].
  destruct (isNullish e.2) eqn:E.
  - rewrite filter_cons_False by congruence. simpl. by rewrite Hf, IH.
  - rewrite filter_cons_True by done. simpl. by rewrite IH.
Qed.

Lemma equalityConditions_length (e : string * value) :
  length (equalityConditions e) = if isNullish e.2 then 0%nat else 1%nat.
Proof. destruct e as [field v]. simpl. by destruct v. Qed.

(** X1. The equality stage treats the entries of [filters] independently
    and in order: the conditions of a concatenation are the concatenation of
    the conditions, there is exactly one condition per entry with a value
    and none for a null or undefined one, and removing the null-valued
    entries changes nothing. *)
Theorem X1_equality_stage_entrywise (fs1 fs2 : Record_) :
  buildWhereQuery (fs1 ++ fs2) = buildWhereQuery fs1 ++ buildWhereQuery fs2
  /\ length (buildWhereQuery fs1) = length (withoutNulls fs1)
  /\ buildWhereQuery (withoutNulls fs1) = buildWhereQuery fs1.
Proof.
  rewrite !buildWhereQuery_spec. split_and!.
  - apply flat_map_app.
  - unfold withoutNulls. induction fs1 as [|e fs IH]; [done|].
    cbn [flat_map]. rewrite length_app, equalityConditions_length, IH.
    destruct (isNullish e.2) eqn:E.
    + by rewrite filter_cons_False by congruence.
    + by rewrite filter_cons_True by done.
  - apply flat_map_withoutNulls. intros [field v] Hv. simpl in *. by rewrite Hv.
Qed.

(** X2. A list-valued filter always becomes one OR group with as many
    members as the list has elements, wherever it stands among the entries.
    Unlike the search stage there is no guard on the members: an empty list
    gives the empty group [{OR: []}]. *)
Theorem X2_list_filter_group (before after : Record_) (field : string)
    (items : list value) :
  (exists members,
     buildWhereQuery (before ++ (field, VArr items) :: after)
     = buildWhereQuery before ++ [VObj [("OR", VArr members)]] ++ buildWhereQuery after
     /\ length members = length items)
  /\ buildWhereQuery (before ++ (field, VArr []) :: after)
     = buildWhereQuery before ++ [VObj [("OR", VArr [])]] ++ buildWhereQuery after.
Proof.
  rewrite !buildWhereQuery_spec, !flat_map_app. cbn [flat_map]. split; [|done].
  eexists. split; [reflexivity|]. by rewrite length_map.
Qed.

(** X3. The search stage contributes at most one condition to the AND list,
    whatever the number of search fields. *)
Theorem X3_search_stage_at_most_one (sfs : Record_) (spec : option QuerySpecification) :
  (length (buildSearchQuery sfs spec) <= 1)%nat.
Proof.
  rewrite buildSearchQuery_spec. unfold groupedSearch.
  destruct (1 <? length sfs)%nat eqn:E.
  - destruct (flat_map _ _); simpl; lia.
  - apply Nat.ltb_ge in E. destruct sfs as [|[field v] [|e sfs]]; simpl in *; try lia.
    destruct (isNullish v); simpl; lia.
Qed.

(** X4. The range stage contributes exactly one condition per ranged filter,
    in order, each the key folded around [{gte: start, lte: end}]; ranges
    are never grouped, and the conditions of a concatenation are the
    concatenation of the conditions. *)
Theorem X4_range_stage (rfs1 rfs2 : list RangedFilter) :
  buildRangedFilter rfs1
  = map (fun r => nested (segments (key r))
                    (VObj [("gte", start r); ("lte", end_ r)])) rfs1
  /\ length (buildRangedFilter rfs1) = length rfs1
  /\ buildRangedFilter (rfs1 ++ rfs2) = buildRangedFilter rfs1 ++ buildRangedFilter rfs2.
Proof.
  rewrite !buildRangedFilter_spec. split_and!.
  - done.
  - apply length_map.
  - apply map_app.
Qed.

Lemma buildSearchQuery_mode (sfs : Record_) (spec1 spec2 : option QuerySpecification) :
  resolveSearchMode spec1 = resolveSearchMode spec2 ->
  buildSearchQuery sfs spec1 = buildSearchQuery sfs spec2.
Proof.
  intros H. rewrite !buildSearchQuery_spec. unfold groupedSearch.
  rewrite !searchConditions_nonnull. by rewrite H.
Qed.

(** X5. The builder reads nothing of the specification but the search mode:
    two specifications that resolve to the same search mode build the same
    query, so allow lists, forbidden fields, relation lists and the page
    size cap never change what is built. *)
Theorem X5_builder_ignores_policy (request : FilteringQuery)
    (spec1 spec2 : option QuerySpecification) :
  resolveSearchMode spec1 = resolveSearchMode spec2 ->
  buildFilterQuery request spec1 = buildFilterQuery request spec2.
Proof.
  intros H. rewrite !buildFilterQuery_spec. unfold andConditions.
  destruct (searchFilters request) as [sfs|]; simpl; [|done].
  by rewrite (buildSearchQuery_mode sfs spec1 spec2 H).
Qed.

Lemma X5_builder_ignores_policy_witness :
  resolveSearchMode (Some sampleSpec) = resolveSearchMode None
  /\ buildFilterQuery requestSearchingPassword (Some sampleSpec)
     = buildFilterQuery requestSearchingPassword None.
Proof.
  split; [reflexivity|].
  exact (X5_builder_ignores_policy requestSearchingPassword (Some sampleSpec) None
           eq_refl).
Defined.

Lemma nested_scalar_inj (segs1 segs2 : list string) (v1 v2 : value) :
  isScalar v1 = true -> isScalar v2 = true ->
  nested segs1 v1 = nested segs2 v2 -> segs1 = segs2 /\ v1 = v2.
Proof.
  intros H1 H2. revert segs2.
  induction segs1 as [|s1 segs1 IH]; intros [|s2 segs2] H; simpl in H.
  - done.
  - subst v1. done.
  - subst v2. done.
  - injection H as -> H. apply IH in H as [-> ->]. done.
Qed.

(** X6. For scalar values the folded equality condition determines the
    field path and the value: two filters give the same condition only if
    they are the same filter. *)
Theorem X6_fold_injective_on_scalars (key1 key2 : string) (v1 v2 : value) :
  isScalar v1 = true -> isScalar v2 = true ->
  buildNestedWhere key1 v1 = buildNestedWhere key2 v2 ->
  key1 = key2 /\ v1 = v2.
Proof.
  intros H1 H2. rewrite !buildNestedWhere_nested. intros H.
  apply nested_scalar_inj in H as [Hs ->]; [|done..]. split; [|done].
  rewrite <- (JsStringFacts.join_split dot key1), <- (JsStringFacts.join_split dot key2).
  unfold segments in Hs. by rewrite Hs.
Qed.

Lemma X6_fold_injective_on_scalars_witness :
  "a.b" = "a.b" /\ VNum 1 = VNum 1.
Proof.
  exact (X6_fold_injective_on_scalars "a.b" "a.b" (VNum 1) (VNum 1)
           eq_refl eq_refl eq_refl).
Defined.

(** Without the restriction to scalars the fold is not injective: a dotted
    path and an object-valued filter on its first segment coincide. *)
Example fold_collision (v : value) :
  buildNestedWhere "a.b" v = buildNestedWhere "a" (VObj [("b", v)]).
Proof. reflexivity. Qed.

Lemma getPath_app (keys1 keys2 : list string) (v : value) :
  getPath (keys1 ++ keys2) v = getPath keys2 (getPath keys1 v).
Proof. unfold getPath. apply fold_left_app. Qed.

Lemma getPath_nested (segs : list string) (leaf : value) :
  getPath segs (nested segs leaf) = leaf.
Proof.
  induction segs as [|seg segs IH]; [done|].
  unfold getPath in *. simpl. by rewrite String.eqb_refl.
Qed.

(** X7. Reading a built condition back along the segments of its path
    returns what was put there: the value of an equality filter, the
    [contains] value and the mode of a search, the two bounds of a range,
    the direction of an ordering. *)
Theorem X7_read_back (path : string) (v : value) (m : SearchMode)
    (range : RangedFilter) (rule : OrderDirection) :
  getPath (segments path) (buildNestedWhere path v) = v
  /\ getPath (segments path ++ ["contains"]) (buildNestedSearch path v m) = v
  /\ getPath (segments path ++ ["mode"]) (buildNestedSearch path v m)
     = VStr (SearchMode_str m)
  /\ getPath (segments (key range) ++ ["gte"]) (buildNestedRange range) = start range
  /\ getPath (segments (key range) ++ ["lte"]) (buildNestedRange range) = end_ range
  /\ getPath (segments path) (buildNestedOrderBy path rule)
     = VStr (OrderDirection_str rule).
Proof.
  rewrite buildNestedWhere_nested, buildNestedSearch_nested,
    buildNestedOrderBy_nested.
  unfold buildNestedRange. rewrite foldPath_nested.
  rewrite !getPath_app, !getPath_nested. by split_and!.
Qed.

(** * Further properties of the validator *)

(** ** Pagination *)

Lemma paginationErrors_nil_iff (Number_toString : number -> string)
    (spec : QuerySpecification) (request : FilteringQuery) :
  paginationErrors Number_toString spec request = []
  <-> (forall p, page request = Some p -> JsNumber.ltb p (JsNumber.of_Z 1) = false)
      /\ (forall r, rows request = Some r ->
            JsNumber.ltb r (JsNumber.of_Z 1) = false
            /\ forall m, maxPageSize spec = Some m -> JsNumber.truthy m = true ->
                  JsNumber.ltb m r = false).
Proof.
  unfold paginationErrors, validatePagination, truthyNumber.
  destruct (page request) as [p|], (rows request) as [r|],
    (maxPageSize spec) as [m|]; simpl;
    repeat match goal with
    | |- context [JsNumber.ltb ?a ?b] =>
        let E := fresh "E" in destruct (JsNumber.ltb a b) eqn:E; simpl
    | |- context [JsNumber.truthy ?a] =>
        let E := fresh "E" in destruct (JsNumber.truthy a) eqn:E; simpl
    end;
    (split;
     [ intros Hnil;
       first
         [ discriminate Hnil
         | split;
           [ intros ? Hp; first [discriminate Hp | by injection Hp as <-]
           | intros ? Hr;
             first
               [ discriminate Hr
               | injection Hr as <-; split;
                 [ done
                 | intros ? Hm Ht;
                   first [discriminate Hm | injection Hm as <-; congruence] ] ] ] ]
     | intros [Hp Hr]; try reflexivity; exfalso;
       try (specialize (Hp _ eq_refl)); try (specialize (Hr _ eq_refl));
       try (destruct Hr as [Hr1 Hr2]; try (specialize (Hr2 _ eq_refl)));
       repeat match goal with
       | H : ?P -> _, H' : ?P |- _ => specialize (H H')
       end;
       congruence ]).
Qed.

Lemma paginationErrors_reported (Number_toString : number -> string)
    (Date_parse : string -> option Z)
    (request : FilteringQuery) (spec : QuerySpecification) (msg : string) :
  msg ∈ paginationErrors Number_toString spec request ->
  msg ∈ vr_errors (validateQuery Number_toString Date_parse request (Some spec)).
Proof.
  intros H. rewrite validateQuery_spec. cbn [vr_errors]. unfold allErrors.
  rewrite !elem_of_app. auto.
Qed.

Ltac pagination_cases request spec :=
  unfold paginationErrors, validatePagination, truthyNumber;
  destruct (page request) as [?p|], (rows request) as [?r|],
    (maxPageSize spec) as [?m|]; simpl;
  repeat match goal with
  | |- context [JsNumber.ltb ?a ?b] =>
      let E := fresh "E" in destruct (JsNumber.ltb a b) eqn:E; simpl
  | |- context [JsNumber.truthy ?a] =>
      let E := fresh "E" in destruct (JsNumber.truthy a) eqn:E; simpl
  end.

Lemma ltb_NaN (x : number) :
  JsNumber.ltb JsNumber.NaN x = false /\ JsNumber.ltb x JsNumber.NaN = false.
Proof. by destruct x. Qed.

(** X8. The pagination check compares as the host does.  It reports nothing
    exactly when [page], if given, is not below 1 and [rows], if given, is
    neither below 1 nor above a truthy [maxPageSize]; since [NaN] is below
    nothing and above nothing, a [NaN] page or rows is never reported, and a
    [maxPageSize] of [0] or [NaN] is no cap.  A [page] below 1, a [rows]
    below 1, and a [rows] above the cap are each reported as an error of the
    validation, the cap printed by the host; the check never warns. *)
Theorem X8_pagination_bounds (Number_toString : number -> string)
    (Date_parse : string -> option Z)
    (request : FilteringQuery) (spec : QuerySpecification) (d : Diag) :
  let one := JsNumber.of_Z 1 in
  let result := validateQuery Number_toString Date_parse request (Some spec) in
  (paginationErrors Number_toString spec request = []
   <-> (forall p, page request = Some p -> JsNumber.ltb p one = false)
       /\ (forall r, rows request = Some r ->
             JsNumber.ltb r one = false
             /\ forall m, maxPageSize spec = Some m -> JsNumber.truthy m = true ->
                   JsNumber.ltb m r = false))
  /\ errors (validatePagination Number_toString request spec d)
     = errors d ++ paginationErrors Number_toString spec request
  /\ warnings (validatePagination Number_toString request spec d) = warnings d
  /\ (forall p, page request = Some p -> JsNumber.ltb p one = true ->
        Msg.pageTooSmall ∈ vr_errors result)
  /\ (forall r, rows request = Some r -> JsNumber.ltb r one = true ->
        Msg.rowsTooSmall ∈ vr_errors result)
  /\ (forall r m, rows request = Some r -> JsNumber.ltb r one = false ->
        maxPageSize spec = Some m -> JsNumber.truthy m = true ->
        JsNumber.ltb m r = true ->
        Msg.rowsTooLarge (Number_toString m) ∈ vr_errors result)
  /\ (forall x, JsNumber.ltb JsNumber.NaN x = false
                /\ JsNumber.ltb x JsNumber.NaN = false)
  /\ JsNumber.truthy JsNumber.NaN = false
  /\ JsNumber.truthy (JsNumber.of_Z 0) = false.
Proof.
  cbv zeta. split; [apply paginationErrors_nil_iff|].
  rewrite validatePagination_spec. unfold emit at 1 2. cbn [errors warnings].
  rewrite app_nil_r. split_and!; try done.
  - intros p Hp Hlt. apply paginationErrors_reported. revert Hp Hlt.
    pagination_cases request spec; intros [= <-] ?; try congruence;
      rewrite ?elem_of_cons; auto.
  - intros r Hr Hlt. apply paginationErrors_reported. revert Hr Hlt.
    pagination_cases request spec; intros [= <-] ?; try congruence;
      rewrite ?elem_of_cons; auto.
  - intros r m Hr Hge Hm Ht Hlt. apply paginationErrors_reported.
    revert Hr Hge Hm Ht Hlt.
    pagination_cases request spec; intros [= <-] ? [= <-] ? ?; try congruence;
      rewrite ?elem_of_cons; auto.
  - apply ltb_NaN.
Qed.




Example rows_above_cap_report :
  validateQuery RefNumber.toString RefDate.parse
    {| filters := None; searchFilters := None; rangedFilters := None;
       orderKey := None; orderRule := None;
       page := Some (JsNumber.of_Z 0); rows := Some (JsNumber.of_Z 500) |}
    (Some sampleSpec)
  = {| isValid := false;
       vr_errors := ["Page number must be greater than 0";
                     "Rows per page cannot exceed 100"];
       vr_warnings := [] |}.
Proof. vm_compute. reflexivity. Qed.

(** A [NaN] page passes the check, and the builder ignores it. *)
Example checked_NaN_page_is_ignored :
  let request := {| filters := None; searchFilters := None; rangedFilters := None;
                    orderKey := None; orderRule := None;
                    page := Some JsNumber.NaN; rows := Some (JsNumber.of_Z 5) |} in
  paginationErrors RefNumber.toString sampleSpec request = []
  /\ buildPagination request = (JsNumber.of_Z 10, JsNumber.of_Z 0).
Proof. split; reflexivity. Qed.

(** ** Forbidden fields, warnings, and what cannot fail *)

Lemma fieldForbidden_origin (Number_toString : number -> string)
    (Date_parse : string -> option Z)
    (request : FilteringQuery) (spec : QuerySpecification) (f : string) :
  Msg.fieldForbidden f ∈ allErrors Number_toString Date_parse spec request
  <-> (exists v, (f, v) ∈ default [] (filters request) /\ isNullish v = false)
      /\ notAllowed spec f = true /\ isForbidden spec f = true.
Proof.
  unfold allErrors. rewrite !elem_of_app. split.
  - intros [H|[H|[H|[H|H]]]].
    + apply elem_of_flat_map in H as ([f' v'] & Hf' & H).
      unfold filterErrors in H. destruct (isNullish v') eqn:Hv';
        [by apply elem_of_nil in H|].
      apply elem_of_app in H as [H|H].
      * destruct (notAllowed spec f') eqn:E1, (isForbidden spec f') eqn:E2;
          simpl in H; try by apply elem_of_nil in H.
        apply list_elem_of_singleton, fieldForbidden_inj in H. subst f'.
        split; [by exists v'|done].
      * by apply relationErrors_firstChar in H.
    + by apply searchErrors_never_forbidden with (f := f) in H.
    + apply elem_of_flat_map in H as (r & _ & H). unfold rangeErrors in H.
      apply elem_of_app in H as [H|H].
      * by apply relationErrors_firstChar in H.
      * by apply dateErrors_firstChar in H.
    + unfold orderErrors in H. destruct (orderKey request) as [k|];
        [|by apply elem_of_nil in H].
      destruct (truthyString (Some k)); [|by apply elem_of_nil in H].
      by apply relationErrors_firstChar in H.
    + by apply paginationErrors_firstChar in H as [H|H].
  - intros ((v & Hin & Hv) & Hna & Hfb). left.
    apply elem_of_flat_map. exists (f, v). split; [done|].
    unfold filterErrors. rewrite Hv, Hna, Hfb. simpl. apply elem_of_cons. by left.
Qed.

(** X10. The error [Field '<f>' is forbidden] is reported exactly when [f]
    is the key of a filter with a value, is outside a configured
    [allowedFields] and inside [forbiddenFields].  So a forbidden field that
    only orders, searches or bounds a range is never an error, a field that
    is allowed is never forbidden, and without [allowedFields] the list
    [forbiddenFields] is never enforced. *)
Theorem X10_forbidden_error_origin (Number_toString : number -> string)
    (Date_parse : string -> option Z)
    (request : FilteringQuery) (spec : QuerySpecification) (f : string) :
  let result := validateQuery Number_toString Date_parse request (Some spec) in
  (Msg.fieldForbidden f ∈ vr_errors result
   <-> (exists v, (f, v) ∈ default [] (filters request) /\ isNullish v = false)
       /\ notAllowed spec f = true /\ isForbidden spec f = true)
  /\ (filters request = None -> Msg.fieldForbidden f ∉ vr_errors result)
  /\ (allowedFields spec = None -> Msg.fieldForbidden f ∉ vr_errors result)
  /\ (forall allowed, allowedFields spec = Some allowed -> f ∈ allowed ->
        Msg.fieldForbidden f ∉ vr_errors result).
Proof.
  cbv zeta. rewrite validateQuery_spec. cbn [vr_errors].
  rewrite fieldForbidden_origin. split_and!; try done.
  - intros Hnone ((v & Hin & _) & _). rewrite Hnone in Hin.
    by apply elem_of_nil in Hin.
  - intros Hnone (_ & Hna & _). unfold notAllowed in Hna. by rewrite Hnone in Hna.
  - intros allowed Hsome Hin. rewrite fieldForbidden_origin.
    intros (_ & Hna & _). unfold notAllowed, arrayIncludes in Hna.
    rewrite Hsome in Hna. by rewrite bool_decide_eq_true_2 in Hna.
Qed.

Lemma flat_map_nil {A B} (f : A -> list B) (l : list A) :
  (forall x, x ∈ l -> f x = []) -> flat_map f l = [].
Proof.
  induction l as [|x l IH]; intros H; simpl; [done|].
  rewrite H by (apply elem_of_cons; by left).
  apply IH. intros y Hy. apply H. apply elem_of_cons. by right.
Qed.

Lemma withoutNulls_elem (entries : Record_) (field : string) (v : value) :
  (field, v) ∈ entries -> isNullish v = false -> field ∈ map fst (withoutNulls entries).
Proof.
  intros Hin Hv. apply list_elem_of_In, in_map_iff. exists (field, v).
  split; [done|]. apply list_elem_of_In. unfold withoutNulls.
  by apply list_elem_of_filter.
Qed.

Lemma allWarnings_nil (request : FilteringQuery) (spec : QuerySpecification) :
  (forall f, f ∈ usedFields request -> notAllowed spec f = false) ->
  allWarnings spec request = [].
Proof.
  intros H. unfold allWarnings, usedFields in *.
  setoid_rewrite elem_of_app in H. setoid_rewrite elem_of_app in H.
  setoid_rewrite elem_of_app in H.
  rewrite !flat_map_nil; cbn [app].
  - unfold orderWarnings. destruct (orderKey request) as [k|]; [|done].
    destruct (truthyString (Some k)) eqn:E; [|done].
    rewrite H; [done|]. do 3 right. apply elem_of_cons. by left.
  - intros r Hr. unfold rangeWarnings. rewrite H; [done|].
    right; right; left. apply list_elem_of_In, in_map. by apply list_elem_of_In.
  - intros [field v] Hin. unfold searchWarnings.
    destruct (isNullish v) eqn:Hv; [done|]. rewrite H; [done|].
    right; left. by eapply withoutNulls_elem.
  - intros [field v] Hin. unfold filterWarnings.
    destruct (isNullish v) eqn:Hv; [done|]. rewrite H; [done|].
    left. by eapply withoutNulls_elem.
Qed.

(** X11. Validation warns only about fields outside a configured
    [allowedFields]: when every field path the request uses is allowed there
    are no warnings, and without [allowedFields] there are never any. *)
Theorem X11_no_warning_for_allowed_fields (Number_toString : number -> string)
    (Date_parse : string -> option Z)
    (request : FilteringQuery) (spec : QuerySpecification) :
  ((forall f, f ∈ usedFields request -> notAllowed spec f = false) ->
     vr_warnings (validateQuery Number_toString Date_parse request (Some spec)) = [])
  /\ (allowedFields spec = None ->
      vr_warnings (validateQuery Number_toString Date_parse request (Some spec)) = []).
Proof.
  rewrite validateQuery_spec. cbn [vr_warnings]. split.
  - apply allWarnings_nil.
  - intros Hnone. apply allWarnings_nil. intros f _. unfold notAllowed.
    by rewrite Hnone.
Qed.

Lemma relationErrors_unconfigured (spec : QuerySpecification) (path : string) :
  allowedRelations spec = None -> relationErrors spec path = [].
Proof. intros H. unfold relationErrors. by rewrite H. Qed.



(** ** Entries without a value, and an empty order key *)

Lemma default_withoutNulls {B} (f : string * value -> list B) (o : option Record_) :
  (forall e, isNullish e.2 = true -> f e = []) ->
  flat_map f (default [] (withoutNulls <$> o)) = flat_map f (default [] o).
Proof.
  intros Hf. destruct o as [entries|]; simpl; [|done].
  by apply flat_map_withoutNulls.
Qed.

(** X13. Entries of [filters] and [searchFilters] whose value is null or
    undefined are invisible to the validator: removing them changes neither
    the errors, nor the warnings, nor the verdict.  The builder's equality
    stage ignores them as well, so removing them from [filters] builds the
    same query. *)
Theorem X13_null_entries_are_invisible (Number_toString : number -> string)
    (Date_parse : string -> option Z)
    (request : FilteringQuery) (spec builderSpec : option QuerySpecification) :
  validateQuery Number_toString Date_parse (dropNulls request) spec
  = validateQuery Number_toString Date_parse request spec
  /\ buildFilterQuery (dropNullFilters request) builderSpec
     = buildFilterQuery request builderSpec.
Proof.
  split.
  - destruct spec as [spec|]; [|done]. rewrite !validateQuery_spec.
    assert (allErrors Number_toString Date_parse spec (dropNulls request)
            = allErrors Number_toString Date_parse spec request) as ->.
    { unfold allErrors. cbn [dropNulls filters searchFilters rangedFilters orderKey].
      rewrite !default_withoutNulls; [done| |].
      - intros [field v] Hv. simpl in *. by rewrite Hv.
      - intros [field v] Hv. simpl in *. by rewrite Hv. }
    assert (allWarnings spec (dropNulls request) = allWarnings spec request) as ->.
    { unfold allWarnings. cbn [dropNulls filters searchFilters rangedFilters orderKey].
      rewrite !default_withoutNulls; [done| |].
      - intros [field v] Hv. simpl in *. by rewrite Hv.
      - intros [field v] Hv. simpl in *. by rewrite Hv. }
    done.
  - rewrite !buildFilterQuery_spec. unfold andConditions.
    cbn [dropNullFilters filters searchFilters rangedFilters orderKey orderRule
         page rows].
    destruct (filters request) as [fs|]; simpl; [|done].
    rewrite !buildWhereQuery_spec, flat_map_withoutNulls; [done|].
    intros [field v] Hv. simpl in *. by rewrite Hv.
Qed.

(** The search stage is different: a null-valued key still counts for the
    grouping, so removing it changes what is built. *)
Example null_search_key_matters :
  buildSearchQuery (withoutNulls [("title", VStr "react"); ("body", VNull)]) None
  <> buildSearchQuery [("title", VStr "react"); ("body", VNull)] None.
Proof. vm_compute. discriminate. Qed.

(** X14. An empty [orderKey] is no order key: the builder leaves [orderBy]
    at [{}] and the validator reports nothing about it, exactly as when
    [orderKey] is absent.  A non-empty [orderKey] without [orderRule] sorts
    ascending. *)
Theorem X14_empty_order_key (Number_toString : number -> string)
    (Date_parse : string -> option Z)
    (request : FilteringQuery) (spec builderSpec : option QuerySpecification)
    (c : ascii) (k : string) :
  buildFilterQuery (withOrderKey (Some EmptyString) request) builderSpec
  = buildFilterQuery (withOrderKey None request) builderSpec
  /\ validateQuery Number_toString Date_parse (withOrderKey (Some EmptyString) request) spec
     = validateQuery Number_toString Date_parse (withOrderKey None request) spec
  /\ (exists q,
        buildFilterQuery (withOrderKey (Some (String c k)) request) builderSpec
        = Some q
        /\ orderBy q
           = nested (segments (String c k))
               (VStr (match orderRule request with
                      | Some desc => "desc"
                      | Some asc | None => "asc"
                      end))).
Proof.
  split_and!.
  - by rewrite !buildFilterQuery_spec.
  - destruct spec as [spec|]; [|done]. by rewrite !validateQuery_spec.
  - eexists. split; [apply buildFilterQuery_spec|].
    cbn [orderBy withOrderKey orderKey orderRule ordering truthyString].
    by destruct (orderRule request) as [[]|].
Qed.

(** ** Dates and relations: what is never reported *)

Lemma dateAfter_irrefl (t : option Z) : dateAfter t t = false.
Proof. destruct t as [t|]; simpl; [apply Z.ltb_irrefl|done]. Qed.

(** X15. The date check is strict and needs two parsed dates: a ranged
    filter whose bounds are equal, or one of whose bounds the host cannot
    parse, gets no start-after-end error; its only possible error is the
    relation error of its key. *)
Theorem X15_no_date_error (Date_parse : string -> option Z)
    (spec : QuerySpecification) (range : RangedFilter) (d : Diag) :
  start range = end_ range
  \/ Date_parse (String_ (start range)) = None
  \/ Date_parse (String_ (end_ range)) = None ->
  dateErrors Date_parse range = []
  /\ errors (validateRangedFilters_step Date_parse spec d range)
     = errors d ++ relationErrors spec (key range).
Proof.
  intros H.
  assert (dateErrors Date_parse range = []) as Hnone.
  { unfold dateErrors. destruct H as [H|[H|H]].
    - by rewrite H, dateAfter_irrefl, andb_false_r.
    - by rewrite H, andb_false_r.
    - rewrite H. destruct (Date_parse (String_ (start range)));
        by rewrite andb_false_r. }
  split; [done|].
  rewrite validateRangedFilters_step_spec. unfold emit, rangeErrors.
  cbn [errors]. by rewrite Hnone, app_nil_r.
Qed.

Lemma X15_no_date_error_witness :
  dateErrors RefDate.parse
    {| key := "createdAt"; start := VStr "2023-01-01T00:00:00Z";
       end_ := VStr "2023-01-01T00:00:00Z" |} = []
  /\ dateErrors RefDate.parse
       {| key := "createdAt"; start := VStr "2023-19-01T00:00:00Z";
          end_ := VStr "2023-01-01T00:00:00Z" |} = [].
Proof.
  split.
  - exact (proj1 (X15_no_date_error RefDate.parse blankSpec
                    {| key := "createdAt"; start := VStr "2023-01-01T00:00:00Z";
                       end_ := VStr "2023-01-01T00:00:00Z" |}
                    {| errors := []; warnings := [] |} (or_introl eq_refl))).
  - exact (proj1 (X15_no_date_error RefDate.parse blankSpec
                    {| key := "createdAt"; start := VStr "2023-19-01T00:00:00Z";
                       end_ := VStr "2023-01-01T00:00:00Z" |}
                    {| errors := []; warnings := [] |}
                    (or_intror (or_introl eq_refl)))).
Defined.

Lemma string_app_assoc (s t u : string) : (s +:+ t) +:+ u = s +:+ (t +:+ u).
Proof.
  induction s as [|a s IH]; [done|].
  change (String a ((s +:+ t) +:+ u) = String a (s +:+ (t +:+ u))). by rewrite IH.
Qed.

Lemma isoUtcPattern_shape (s : string) :
  isoUtcPattern s ->
  exists body, s = body +:+ "Z" /\ (19 <= String.length body)%nat.
Proof.
  intros (YYYY & MM & DD & hh & mm & ss & fraction & -> & [HY _] & [HM _] & [HD _]
          & [Hh _] & [Hm _] & [Hs _] & _).
  exists (YYYY +:+ "-" +:+ MM +:+ "-" +:+ DD +:+ "T"
          +:+ hh +:+ ":" +:+ mm +:+ ":" +:+ ss +:+ fraction).
  split.
  - by rewrite !string_app_assoc.
  - rewrite !string_app_length, HY, HM, HD, Hh, Hm, Hs. simpl. lia.
Qed.

(** X16. Only strings that end in [Z] and have at least 19 characters before
    it are treated as dates: numbers, [Date] objects, null, and strings with
    a zone offset or without a time never enter the date comparison. *)
Theorem X16_only_utc_strings_are_dates (v : value) :
  (isValidDate v = true ->
     exists body, v = VStr (body +:+ "Z") /\ (19 <= String.length body)%nat)
  /\ (forall n, isValidDate (VNum n) = false)
  /\ (forall t, isValidDate (VDate t) = false)
  /\ isValidDate VNull = false
  /\ isValidDate VUndefined = false.
Proof.
  split_and!; try done.
  intros (s & -> & Hs)%isValidDate_pattern.
  apply isoUtcPattern_shape in Hs as (body & -> & Hlen). by exists body.
Qed.

Lemma find_violation_inv (allowed hops : list string) (hop : string) :
  find (fun h => negb (arrayIncludes allowed h)) hops = Some hop ->
  exists pre post,
    hops = pre ++ hop :: post /\ Forall (fun h => h ∈ allowed) pre /\ hop ∉ allowed.
Proof.
  induction hops as [|h hops IH]; simpl; [done|].
  unfold arrayIncludes at 1. destruct (decide (h ∈ allowed)) as [Hin|Hin].
  - rewrite bool_decide_eq_true_2 by done. simpl. intros H.
    destruct (IH H) as (pre & post & -> & Hpre & Hhop).
    exists (h :: pre), post. split_and!; [done| |done]. by constructor.
  - rewrite bool_decide_eq_false_2 by done. simpl. intros [= <-].
    exists [], hops. split_and!; [done| |done]. constructor.
Qed.

(** X17. The relation check never accuses wrongly: every error that
    [validateMultiLevelRelation] adds for a path cites a segment of that
    path which is not the terminal one, is not in [allowedRelations], and
    before which every segment is allowed.  It adds no warning; for a path
    without a dot, and for a specification without [allowedRelations], it
    changes nothing. *)
Theorem X17_relation_errors_are_sound (spec : QuerySpecification) (path : string)
    (d : Diag) :
  (forall msg, msg ∈ errors (validateMultiLevelRelation path spec d) ->
     msg ∈ errors d
     \/ exists allowed pre hop post terminal,
          allowedRelations spec = Some allowed
          /\ JsString.split dot path = pre ++ hop :: post ++ [terminal]
          /\ Forall (fun h => h ∈ allowed) pre
          /\ (hop ∉ allowed)
          /\ msg = Msg.relationNotAllowed hop path)
  /\ warnings (validateMultiLevelRelation path spec d) = warnings d
  /\ (JsString.includes dot path = false ->
      validateMultiLevelRelation path spec d = d)
  /\ (allowedRelations spec = None ->
      validateMultiLevelRelation path spec d = d).
Proof.
  rewrite validateMultiLevelRelation_spec. split_and!.
  - intros msg. unfold emit. cbn [errors]. rewrite elem_of_app.
    intros [H|H]; [by left|right]. revert H. unfold relationErrors.
    destruct (allowedRelations spec) as [allowed|]; [|by intros ?%elem_of_nil].
    destruct (find _ _) as [hop|] eqn:E; [|by intros ?%elem_of_nil].
    intros ->%list_elem_of_singleton.
    apply find_violation_inv in E as (pre & post & Hhops & Hpre & Hhop).
    destruct (pop_snoc (JsString.split dot path)) as (terminal & _ & Hl).
    { apply JsStringFacts.split_nonempty. }
    exists allowed, pre, hop, post, terminal. split_and!; try done.
    rewrite Hl. unfold relationHops, segments in Hhops. rewrite Hhops.
    by rewrite <- app_assoc.
  - unfold emit. cbn [warnings]. apply app_nil_r.
  - intros H. by rewrite relationErrors_plain, emit_nil.
  - intros H. by rewrite relationErrors_unconfigured, emit_nil.
Qed.
